(** * SNet: the synapse core ([snet/core/synapse.py])

    A shallow embedding of [AbstractSynapse] and [ExponentialSTDPSynapse]
    together with the part of the tensor library they call.  Tensors are
    dense row-major blocks with an explicit shape; reals stand for the
    floating-point scalars and arithmetic on them is exact (see
    [float32] for where that is the library's own result); Python
    exceptions are values of [Exn]; the
    mutable objects (two layers, the network clock, the synapse) form the
    state threaded by the monad [M], and a mutation made before an
    exception is raised stays in that state, as in Python. *)

From Stdlib Require Import String.
From Stdlib Require Import List Arith Lia Bool.
From Stdlib Require Import Reals Lra Psatz.
Import ListNotations.
Local Open Scope string_scope.
Local Open Scope list_scope.
Local Open Scope nat_scope.

(** ** Python exceptions and results *)

Inductive Exn : Type :=
| AttributeError (attr : string)
| IndexError (msg : string)
| RuntimeError (msg : string)
| NotImplementedError (msg : string).

Definition result (A : Type) : Type := (Exn + A)%type.

Definition is_error {A : Type} (r : result A) : bool :=
  match r with inl _ => true | inr _ => false end.

(** Default elements, used when a flat block is read out of range. *)
Class Default (A : Type) : Type := dflt : A.
#[export] Instance Default_R : Default R := 0%R.
#[export] Instance Default_bool : Default bool := false.

(** Boolean order test on the reals ([<=] on tensors yields a mask). *)
Definition Rleb (x y : R) : bool := if Rle_dec x y then true else false.

(** ** The tensor operations the synapse uses *)

Module Torch.

Record Tensor (A : Type) : Type := mkTensor {
  shape : list nat;
  data : list A
}.
Arguments mkTensor {A} _ _.
Arguments shape {A} _.
Arguments data {A} _.

Definition ndim {A} (t : Tensor A) : nat := length (shape t).

Definition numel (s : list nat) : nat := fold_right Nat.mul 1 s.

(** All index tuples of a shape, in row-major order. *)
Fixpoint indices (s : list nat) : list (list nat) :=
  match s with
  | [] => [[]]
  | n :: s' => concat (map (fun k => map (cons k) (indices s')) (seq 0 n))
  end.

(** Row-major offset of an index tuple. *)
Fixpoint ravel (s idx : list nat) : nat :=
  match s, idx with
  | _ :: s', k :: idx' => k * numel s' + ravel s' idx'
  | _, _ => 0
  end.

Definition get {A} `{Default A} (t : Tensor A) (idx : list nat) : A :=
  nth (ravel (shape t) idx) (data t) dflt.

Definition tabulate {A} (s : list nat) (f : list nat -> A) : Tensor A :=
  mkTensor s (map f (indices s)).

(** Elementwise map: tensor-with-scalar arithmetic, comparisons with a
    scalar, [torch.exp], unary minus. *)
Definition tmap {A B} (f : A -> B) (t : Tensor A) : Tensor B :=
  mkTensor (shape t) (map f (data t)).

(** [torch.ones(n)] for an integer [n] and its negation. *)
Definition ones (n : nat) : Tensor R := mkTensor [n] (List.repeat 1%R n).
Definition neg (t : Tensor R) : Tensor R := tmap Ropp t.

(** *** Broadcasting

    Shapes are aligned at their last dimension; two sizes are compatible
    when they are equal or one of them is 1; a missing leading dimension
    counts as 1. *)
Fixpoint broadcast_rev (r1 r2 : list nat) : option (list nat) :=
  match r1, r2 with
  | [], r => Some r
  | r, [] => Some r
  | a :: r1', b :: r2' =>
      if a =? b then option_map (cons a) (broadcast_rev r1' r2')
      else if a =? 1 then option_map (cons b) (broadcast_rev r1' r2')
      else if b =? 1 then option_map (cons a) (broadcast_rev r1' r2')
      else None
  end.

Definition broadcast_shapes (s1 s2 : list nat) : option (list nat) :=
  option_map (@rev nat) (broadcast_rev (rev s1) (rev s2)).

(** The index of the source element that lands at [idx] of the
    broadcast result: leading dimensions the source lacks are dropped and
    a dimension of size 1 is read at 0. *)
Definition expand_index (s idx : list nat) : list nat :=
  map (fun ni => if fst ni =? 1 then 0 else snd ni)
      (combine s (skipn (length idx - length s) idx)).

Definition same_shape (s1 s2 : list nat) : bool :=
  if list_eq_dec Nat.eq_dec s1 s2 then true else false.

Section Binary.
Context {A B C : Type} `{Default A} `{Default B}.
Variable f : A -> B -> C.

Definition zip_at (s : list nat) (a : Tensor A) (b : Tensor B) : Tensor C :=
  tabulate s (fun idx => f (get a (expand_index (shape a) idx))
                           (get b (expand_index (shape b) idx))).

(** Out-of-place binary operation [a (op) b]. *)
Definition broadcast2 (a : Tensor A) (b : Tensor B) : result (Tensor C) :=
  match broadcast_shapes (shape a) (shape b) with
  | Some s => inr (zip_at s a b)
  | None =>
      inl (RuntimeError "The size of tensor a must match the size of tensor b")
  end.
End Binary.

(** In-place binary operation [self (op)= other] ([-=], [+=], [&=]): the
    operands must broadcast, and the broadcast shape must be the shape of
    [self], since an in-place operation cannot change the shape of the
    tensor it writes to.  So a 1-D tensor is never updated in place by a
    2-D one, whatever their sizes. *)
Definition inplace2 {A B} `{Default A} `{Default B}
    (f : A -> B -> A) (self : Tensor A) (other : Tensor B) : result (Tensor A) :=
  match broadcast_shapes (shape self) (shape other) with
  | Some s =>
      if same_shape s (shape self) then inr (zip_at f s self other)
      else inl (RuntimeError "output shape doesn't match the broadcast shape")
  | None =>
      inl (RuntimeError "The size of tensor a must match the size of tensor b")
  end.

(** *** Named operations *)

Definition sub : Tensor R -> Tensor R -> result (Tensor R) := broadcast2 Rminus.
Definition mul : Tensor R -> Tensor R -> result (Tensor R) := broadcast2 Rmult.
Definition isub : Tensor R -> Tensor R -> result (Tensor R) := inplace2 Rminus.
Definition iadd : Tensor R -> Tensor R -> result (Tensor R) := inplace2 Rplus.
Definition iand : Tensor bool -> Tensor bool -> result (Tensor bool) := inplace2 andb.

(** [torch.ger(a, b)]: outer product of two 1-D tensors; on masks the
    product of two entries is their conjunction. *)
Definition ger (a b : Tensor bool) : result (Tensor bool) :=
  match shape a, shape b with
  | [n], [m] =>
      inr (tabulate [n; m]
             (fun idx => get a [nth 0 idx 0] && get b [nth 1 idx 0]))
  | _, _ => inl (RuntimeError "ger: expected 1-D tensors")
  end.

(** [x.repeat(r1, ..., rk)]: the list [sizes] of the [ri] has at least
    as many entries as [x] has dimensions; [x] is viewed with leading
    dimensions of size 1 and copied [ri] times along dimension [i]. *)
Definition repeat {A} `{Default A} (x : Tensor A) (sizes : list nat)
    : result (Tensor A) :=
  if length sizes <? ndim x
  then inl (RuntimeError "repeat: fewer repeat dims than tensor dims")
  else
    let pad := length sizes - ndim x in
    let padded := List.repeat 1 pad ++ shape x in
    inr (tabulate (map (fun rn => fst rn * snd rn) (combine sizes padded))
           (fun idx =>
              get x (skipn pad (map (fun kn => fst kn mod snd kn)
                                    (combine idx padded))))).

(** [x.t()]: transposition of a tensor of at most two dimensions. *)
Definition t {A} `{Default A} (x : Tensor A) : result (Tensor A) :=
  match shape x with
  | [] | [_] => inr x
  | [r; c] => inr (tabulate [c; r] (fun idx => get x [nth 1 idx 0; nth 0 idx 0]))
  | _ => inl (RuntimeError "t() expects a tensor with <= 2 dimensions")
  end.

(** *** Indexing with a boolean mask

    The mask's shape must be the leading part of the indexed tensor's
    shape; what remains is a block of [c] contiguous elements per mask
    entry. *)
Definition count_true (m : Tensor bool) : nat :=
  length (filter (fun b : bool => b) (data m)).

Definition mask_fits {A} (x : Tensor A) (m : Tensor bool) : bool :=
  same_shape (shape m) (firstn (ndim m) (shape x)).

Definition block {A} (x : Tensor A) (m : Tensor bool) : list nat :=
  skipn (ndim m) (shape x).

Fixpoint select {A} (mask : list bool) (c : nat) (l : list A) : list A :=
  match mask with
  | [] => []
  | b :: mask' =>
      (if b then firstn c l else []) ++ select mask' c (skipn c l)
  end.

Fixpoint fill {A} (mask : list bool) (c : nat) (v : A) (l : list A) : list A :=
  match mask with
  | [] => l
  | b :: mask' =>
      (if b then map (fun _ => v) (firstn c l) else firstn c l)
        ++ fill mask' c v (skipn c l)
  end.

Fixpoint scatter {A} (mask : list bool) (c : nat) (vals l : list A) : list A :=
  match mask with
  | [] => l
  | true :: mask' => firstn c vals ++ scatter mask' c (skipn c vals) (skipn c l)
  | false :: mask' => firstn c l ++ scatter mask' c vals (skipn c l)
  end.

Definition index_error : Exn :=
  IndexError "The shape of the mask does not match the shape of the indexed tensor".

(** [x[m]]: a fresh tensor (a copy, not a view) holding the selected
    blocks in row-major order; for a mask of the shape of [x] it is 1-D,
    with one entry per true entry of the mask. *)
Definition getitem_mask {A} (x : Tensor A) (m : Tensor bool) : result (Tensor A) :=
  if mask_fits x m
  then inr (mkTensor (count_true m :: block x m)
                     (select (data m) (numel (block x m)) (data x)))
  else inl index_error.

(** [x[m] = v] for a scalar [v]. *)
Definition setitem_mask_scalar {A} (x : Tensor A) (m : Tensor bool) (v : A)
    : result (Tensor A) :=
  if mask_fits x m
  then inr (mkTensor (shape x) (fill (data m) (numel (block x m)) v (data x)))
  else inl index_error.

Fixpoint strip_ones (s : list nat) : list nat :=
  match s with
  | 1 :: s' => strip_ones s'
  | _ => s
  end.

(** [x[m] = v] for a tensor [v]: [v], without its leading dimensions of
    size 1, must broadcast to the shape of [x[m]]. *)
Definition setitem_mask {A} `{Default A} (x : Tensor A) (m : Tensor bool)
    (v : Tensor A) : result (Tensor A) :=
  if mask_fits x m then
    let target := count_true m :: block x m in
    let v' := mkTensor (strip_ones (shape v)) (data v) in
    match broadcast_shapes (shape v') target with
    | Some s =>
        if same_shape s target
        then inr (mkTensor (shape x)
                    (scatter (data m) (numel (block x m))
                       (data (tabulate target
                                (fun idx => get v' (expand_index (shape v') idx))))
                       (data x)))
        else inl (RuntimeError "shape mismatch: value cannot be broadcast to the indexing result")
    | None =>
        inl (RuntimeError "shape mismatch: value cannot be broadcast to the indexing result")
    end
  else inl index_error.

(** [x.clamp_(min=lo, max=hi)]. *)
Definition clamp_ (lo hi : R) (x : Tensor R) : Tensor R :=
  tmap (fun v => Rmin (Rmax v lo) hi) x.

(** *** [torch.matmul]

    A 1-D first operand gets a leading dimension of size 1, a 1-D second
    operand a trailing one, both removed from the result; the dimensions
    before the last two are batch dimensions and broadcast. *)
Definition Rsum (l : list R) : R := fold_right Rplus 0%R l.

Definition matmul (a b : Tensor R) : result (Tensor R) :=
  match shape a, shape b with
  | [], _ | _, [] =>
      inl (RuntimeError "both arguments to matmul need to be at least 1D")
  | _, _ =>
      let sa := if ndim a =? 1 then 1 :: shape a else shape a in
      let sb := if ndim b =? 1 then shape b ++ [1] else shape b in
      let a' := mkTensor sa (data a) in
      let b' := mkTensor sb (data b) in
      let ba := firstn (length sa - 2) sa in
      let bb := firstn (length sb - 2) sb in
      match skipn (length sa - 2) sa, skipn (length sb - 2) sb with
      | [r; n], [n'; c] =>
          if n =? n' then
            match broadcast_shapes ba bb with
            | Some batch =>
                let nb := length batch in
                let prod :=
                  tabulate (batch ++ [r; c])
                    (fun idx =>
                       let bi := firstn nb idx in
                       Rsum (map (fun k =>
                               Rmult
                                 (get a' (expand_index ba bi ++ [nth nb idx 0; k]))
                                 (get b' (expand_index bb bi ++ [k; nth (S nb) idx 0])))
                             (seq 0 n))) in
                inr (mkTensor (batch ++ (if ndim a =? 1 then [] else [r])
                                     ++ (if ndim b =? 1 then [] else [c]))
                              (data prod))
            | None => inl (RuntimeError "matmul: batch dimensions do not broadcast")
            end
          else inl (RuntimeError "size mismatch in matmul")
      | _, _ => inl (RuntimeError "size mismatch in matmul")
      end
  end.

End Torch.

Import Torch.

(** ** The objects the synapse refers to *)

(** A layer, as far as the synapse reads or writes it. *)
Module Layer.
Record t : Type := mk {
  size : nat;
  o : Tensor R;
  i : Tensor R;
  firing_mask : Tensor bool
}.

Definition set_i (v : Tensor R) (l : t) : t :=
  mk (size l) (o l) v (firing_mask l).
End Layer.

Module Network.
Record t : Type := mk { time : R }.
End Network.

(** The synapse's own attributes.  [tau_m], [tau_p], [learn_rate_m] and
    [learn_rate_p] are read by the update hooks but assigned nowhere in
    the class; they exist only if the caller has assigned them. *)
Record Synapse : Type := mkSynapse {
  weights : Tensor R;
  w_min : R;
  w_max : R;
  _last_pre_spike_time : Tensor R;
  _last_post_spike_time : Tensor R;
  static : bool;
  tau_m : option R;
  tau_p : option R;
  learn_rate_m : option R;
  learn_rate_p : option R
}.

Definition set_weights (v : Tensor R) (s : Synapse) : Synapse :=
  mkSynapse v (w_min s) (w_max s) (_last_pre_spike_time s)
    (_last_post_spike_time s) (static s)
    (tau_m s) (tau_p s) (learn_rate_m s) (learn_rate_p s).

Definition set_last_pre_spike_time (v : Tensor R) (s : Synapse) : Synapse :=
  mkSynapse (weights s) (w_min s) (w_max s) v
    (_last_post_spike_time s) (static s)
    (tau_m s) (tau_p s) (learn_rate_m s) (learn_rate_p s).

Definition set_last_post_spike_time (v : Tensor R) (s : Synapse) : Synapse :=
  mkSynapse (weights s) (w_min s) (w_max s) (_last_pre_spike_time s)
    v (static s)
    (tau_m s) (tau_p s) (learn_rate_m s) (learn_rate_p s).

(** The object graph: [self.pre_layer], [self.post_layer], [self.network]
    and [self]. *)
Record World : Type := mkWorld {
  pre_layer : Layer.t;
  post_layer : Layer.t;
  network : Network.t;
  self : Synapse
}.

Definition on_self (f : Synapse -> Synapse) (w : World) : World :=
  mkWorld (pre_layer w) (post_layer w) (network w) (f (self w)).

Definition on_post_layer (f : Layer.t -> Layer.t) (w : World) : World :=
  mkWorld (pre_layer w) (f (post_layer w)) (network w) (self w).

(** ** State and exceptions *)

Definition M (A : Type) : Type := World -> result A * World.

Definition ret {A} (x : A) : M A := fun w => (inr x, w).

Definition bind {A B} (m : M A) (k : A -> M B) : M B :=
  fun w =>
    match m w with
    | (inr x, w') => k x w'
    | (inl e, w') => (inl e, w')
    end.

Definition lift {A} (r : result A) : M A := fun w => (r, w).

Definition gets {A} (f : World -> A) : M A := fun w => (inr (f w), w).

Definition modify (f : World -> World) : M unit := fun w => (inr tt, f w).

(** Reading an attribute that may not have been assigned. *)
Definition getattr (name : string) (f : Synapse -> option R) : M R :=
  fun w =>
    match f (self w) with
    | Some v => (inr v, w)
    | None => (inl (AttributeError name), w)
    end.

Declare Scope py_scope.
Delimit Scope py_scope with py.
Notation "x <- c ;; k" := (bind c (fun x => k))
  (at level 100, c at next level, right associativity) : py_scope.
Notation "c ;; k" := (bind c (fun _ => k))
  (at level 100, right associativity) : py_scope.
Local Open Scope py_scope.

(** ** class AbstractSynapse *)

Module AbstractSynapse.

(** [__init__(self, pre_layer, post_layer, weights, net)]: every
    attribute is assigned as given; nothing is compared or checked. *)
Definition __init__ (pre_layer post_layer : Layer.t) (weights : Tensor R)
    (net : Network.t) : result World :=
  inr (mkWorld pre_layer post_layer net
         (mkSynapse weights 0%R 1%R
            (neg (ones (Layer.size pre_layer)))
            (neg (ones (Layer.size post_layer)))
            false None None None None)).

Definition forward : M unit :=
  pre <- gets (fun w => Layer.o (pre_layer w)) ;;
  ws <- gets (fun w => weights (self w)) ;;
  v <- lift (matmul pre ws) ;;
  modify (on_post_layer (Layer.set_i v)).

Definition _clamp : M unit :=
  lo <- gets (fun w => w_min (self w)) ;;
  hi <- gets (fun w => w_max (self w)) ;;
  modify (on_self (fun s => set_weights (clamp_ lo hi (weights s)) s)).

Definition time : M R := gets (fun w => Network.time (network w)).

Definition update_on_pre_spikes : M unit :=
  lift (inl (NotImplementedError "update_on_pre_spikes() is not implemented.")).

Definition update_on_post_spikes : M unit :=
  lift (inl (NotImplementedError "update_on_post_spikes() is not implemented.")).

Definition plot_weight_map : M unit := ret tt.

End AbstractSynapse.

(** ** class ExponentialSTDPSynapse(AbstractSynapse) *)

Module ExponentialSTDPSynapse.

(** [__init__] only calls the parent's; the learning-rate options are
    left unparsed. *)
Definition __init__ := AbstractSynapse.__init__.

Definition forward := AbstractSynapse.forward.
Definition _clamp := AbstractSynapse._clamp.
Definition time := AbstractSynapse.time.

(** The masked entries and time differences of a pre-spike update
    (lines 93 to 105): records the new pre-spikes, then yields
    [(active, dt)]. *)
Definition pre_spike_pairs : M (Tensor bool * Tensor R) :=
  (* record new pre-spikes *)
  now <- time ;;
  last_pre <- gets (fun w => _last_pre_spike_time (self w)) ;;
  firing <- gets (fun w => Layer.firing_mask (pre_layer w)) ;;
  last_pre <- lift (setitem_mask_scalar last_pre firing now) ;;
  modify (on_self (set_last_pre_spike_time last_pre)) ;;
  (* mask *)
  last_post <- gets (fun w => _last_post_spike_time (self w)) ;;
  let post_active := tmap (Rleb 0) last_post in
  active <- lift (ger firing post_active) ;;
  (* calculate timing difference (where new pre-spikes timing is now) *)
  post_size <- gets (fun w => Layer.size (post_layer w)) ;;
  pre_rows <- lift (repeat last_pre [post_size; 1]) ;;
  pre_rows <- lift (t pre_rows) ;;
  pre_size <- gets (fun w => Layer.size (pre_layer w)) ;;
  post_rows <- lift (repeat last_post [pre_size; 1]) ;;
  dt <- lift (sub pre_rows post_rows) ;;
  tau <- getattr "tau_m" tau_m ;;
  let window_mask := tmap (fun d => Rleb d (2 * tau)) dt in
  active <- lift (iand active window_mask) ;;
  ret (active, dt).

(** Lines 89 to 110.  Line 108 is
    [dw = self.learn_rate_m * (self.weights[active] - self.w_min)
          * torch.exp(-dt / self.tau_m)]
    and line 109 is [self.weights[active] -= dw], that is: pick
    [self.weights[active]], subtract [dw] from the picked tensor in place,
    assign the result to [self.weights[active]]. *)
Definition update_on_pre_spikes : M unit :=
  is_static <- gets (fun w => static (self w)) ;;
  if is_static : bool then ret tt else
  ad <- pre_spike_pairs ;;
  let active := fst ad in
  let dt := snd ad in
  (* weights decrease, because pre-spikes come after post-spikes *)
  rate <- getattr "learn_rate_m" learn_rate_m ;;
  ws <- gets (fun w => weights (self w)) ;;
  (* self.weights[active]: the picked entries *)
  picked <- lift (getitem_mask ws active) ;;
  lo <- gets (fun w => w_min (self w)) ;;
  let headroom := tmap (fun x => rate * (x - lo))%R picked in
  tau <- getattr "tau_m" tau_m ;;
  (* torch.exp(-dt / self.tau_m): over all of dt, not over dt[active] *)
  let decay := tmap (fun d => exp (- d / tau)) dt in
  dw <- lift (mul headroom decay) ;;
  ws <- gets (fun w => weights (self w)) ;;
  picked <- lift (getitem_mask ws active) ;;
  picked <- lift (isub picked dw) ;;
  ws <- lift (setitem_mask ws active picked) ;;
  modify (on_self (set_weights ws)) ;;
  _clamp.

(** Lines 116 to 128, the mirror image for new post-spikes. *)
Definition post_spike_pairs : M (Tensor bool * Tensor R) :=
  (* record new post-spikes *)
  now <- time ;;
  last_post <- gets (fun w => _last_post_spike_time (self w)) ;;
  firing <- gets (fun w => Layer.firing_mask (post_layer w)) ;;
  last_post <- lift (setitem_mask_scalar last_post firing now) ;;
  modify (on_self (set_last_post_spike_time last_post)) ;;
  (* mask *)
  last_pre <- gets (fun w => _last_pre_spike_time (self w)) ;;
  let pre_active := tmap (Rleb 0) last_pre in
  active <- lift (ger pre_active firing) ;;
  (* calculate timing difference (where new post-spikes timing is now) *)
  pre_size <- gets (fun w => Layer.size (pre_layer w)) ;;
  post_rows <- lift (repeat last_post [pre_size; 1]) ;;
  post_size <- gets (fun w => Layer.size (post_layer w)) ;;
  pre_rows <- lift (repeat last_pre [post_size; 1]) ;;
  pre_rows <- lift (t pre_rows) ;;
  dt <- lift (sub post_rows pre_rows) ;;
  tau <- getattr "tau_p" tau_p ;;
  let window_mask := tmap (fun d => Rleb d (2 * tau)) dt in
  active <- lift (iand active window_mask) ;;
  ret (active, dt).

(** Lines 112 to 133, with [self.w_max - self.weights[active]], [tau_p],
    [learn_rate_p] and [+=] in place of their counterparts. *)
Definition update_on_post_spikes : M unit :=
  is_static <- gets (fun w => static (self w)) ;;
  if is_static : bool then ret tt else
  ad <- post_spike_pairs ;;
  let active := fst ad in
  let dt := snd ad in
  rate <- getattr "learn_rate_p" learn_rate_p ;;
  hi <- gets (fun w => w_max (self w)) ;;
  ws <- gets (fun w => weights (self w)) ;;
  (* self.weights[active]: the picked entries *)
  picked <- lift (getitem_mask ws active) ;;
  let headroom := tmap (fun x => rate * (hi - x))%R picked in
  tau <- getattr "tau_p" tau_p ;;
  (* torch.exp(-dt / self.tau_p): over all of dt, not over dt[active] *)
  let decay := tmap (fun d => exp (- d / tau)) dt in
  dw <- lift (mul headroom decay) ;;
  ws <- gets (fun w => weights (self w)) ;;
  picked <- lift (getitem_mask ws active) ;;
  picked <- lift (iadd picked dw) ;;
  ws <- lift (setitem_mask ws active picked) ;;
  modify (on_self (set_weights ws)) ;;
  _clamp.

End ExponentialSTDPSynapse.

(** ** Sequences of hook calls

    Between two calls the scheduler may replace whatever belongs to it:
    both layers (their sizes, outputs and firing masks) and the clock.  The
    synapse's own attributes are touched by the hooks only. *)

Inductive Hook : Type := PreSpikes | PostSpikes.

Record Call : Type := mkCall {
  hook : Hook;
  call_pre : Layer.t;
  call_post : Layer.t;
  call_net : Network.t
}.

Definition arrange (c : Call) (w : World) : World :=
  mkWorld (call_pre c) (call_post c) (call_net c) (self w).

Definition run_hook (h : Hook) : M unit :=
  match h with
  | PreSpikes => ExponentialSTDPSynapse.update_on_pre_spikes
  | PostSpikes => ExponentialSTDPSynapse.update_on_post_spikes
  end.

Definition call (c : Call) (w : World) : result unit * World :=
  run_hook (hook c) (arrange c w).

(** The states observed after each call of a sequence, in order. *)
Fixpoint observe (cs : list Call) (w : World) : list World :=
  match cs with
  | [] => []
  | c :: cs' => let w' := snd (call c w) in w' :: observe cs' w'
  end.

Definition within_bounds (s : Synapse) : Prop :=
  Forall (fun x => w_min s <= x <= w_max s)%R (data (weights s)).

(** ** Notions used in the statements *)

(** Everything but the two spike-time vectors is the same. *)
Definition same_but_times (s s' : Synapse) : Prop :=
  weights s' = weights s /\ w_min s' = w_min s /\ w_max s' = w_max s /\
  static s' = static s /\ tau_m s' = tau_m s /\ tau_p s' = tau_p s /\
  learn_rate_m s' = learn_rate_m s /\ learn_rate_p s' = learn_rate_p s.


(** A 1-D tensor of [n] elements. *)
Definition vector_of {A} (n : nat) (x : Tensor A) : Prop :=
  shape x = [n] /\ length (data x) = n.

(** The product of a vector [x] of length [P] with a [P] by [Q] matrix
    [m], written from its textbook definition: entry [q] is the sum over
    [p] of [x[p] * m[p][q]]. *)
Definition vec_mat (P Q : nat) (x m : Tensor R) : Tensor R :=
  tabulate [Q]
    (fun idx => Rsum (map (fun p => Rmult (get x [p]) (get m [p; nth 0 idx 0]))
                          (seq 0 P))).

(** ** Floating point

    The tensors of the synapse hold float32 numbers.  The model holds
    their real values and computes with them in the reals, so an operation
    of the model returns what the tensor library returns whenever the exact
    result is a float32 number again (a stored scalar that is one, a
    difference of two ticks, a sum of small whole numbers).  The statements
    about stored or computed values name that condition in their
    hypotheses; statements about shapes, signs, exceptions and unchanged
    attributes do not depend on it. *)

(** The finite float32 numbers: [m * 2^e] with a significand of at most
    24 bits and an exponent between -149 and 104. *)
Definition float32 (x : R) : Prop :=
  exists m e : Z,
    (Z.abs m < 16777216)%Z /\ (-149 <= e <= 104)%Z /\
    x = (IZR m * powerRZ 2 e)%R.

Definition whole (x : R) : Prop := exists n : Z, x = IZR n.

(** The products of a vector [o] of length [P] with the columns of a
    row-major [P] by [Q] block [ws] are free of rounding, in whatever
    order the terms are accumulated: all entries are whole numbers and
    the absolute values of the terms of each column add up to at most
    2^24, so every partial sum is a whole number of magnitude at most
    2^24 and hence a float32 number. *)
Definition exact_products (P Q : nat) (o ws : list R) : Prop :=
  Forall whole o /\ Forall whole ws /\
  forall q, q < Q ->
    (fold_right Rplus 0
       (map (fun p => Rabs (nth p o 0 * nth (p * Q + q) ws 0)) (seq 0 P))
     <= 16777216)%R.

(** The clock value [now] is stored without rounding, and so is every
    difference between a spike time of the side that fires ([now] or one of
    [new]) and a spike time of the other side ([old]). *)
Definition exact_timing (now : R) (new old : list R) : Prop :=
  float32 now /\
  forall x y, In x (now :: new) -> In y old -> float32 (x - y).

(** ** Notions used in the further properties *)

(** The worlds an update can end in: with the new spike times recorded,
    and possibly with new weights, clamped. *)
Definition pre_recorded (lp : Tensor R) (w : World) : World :=
  on_self (set_last_pre_spike_time lp) w.
Definition post_recorded (lq : Tensor R) (w : World) : World :=
  on_self (set_last_post_spike_time lq) w.
Definition reweighted (v : Tensor R) (w : World) : World :=
  on_self (set_weights (clamp_ (w_min (self w)) (w_max (self w)) v)) w.

(** Both layers, the network and every scalar attribute of the synapse
    are the same. *)
Definition same_surroundings (w w' : World) : Prop :=
  pre_layer w' = pre_layer w /\ post_layer w' = post_layer w /\
  network w' = network w /\
  w_min (self w') = w_min (self w) /\ w_max (self w') = w_max (self w) /\
  static (self w') = static (self w) /\
  tau_m (self w') = tau_m (self w) /\ tau_p (self w') = tau_p (self w) /\
  learn_rate_m (self w') = learn_rate_m (self w) /\
  learn_rate_p (self w') = learn_rate_p (self w).

(** No recorded spike time is later than [t]. *)
Definition not_after (t : R) (s : Synapse) : Prop :=
  Forall (fun v => v <= t)%R (data (_last_pre_spike_time s)) /\
  Forall (fun v => v <= t)%R (data (_last_post_spike_time s)).

(** Entry by entry, the spike times of [s'] are those of [s] or later. *)
Definition never_earlier (s s' : Synapse) : Prop :=
  Forall2 Rle (data (_last_pre_spike_time s)) (data (_last_pre_spike_time s')) /\
  Forall2 Rle (data (_last_post_spike_time s)) (data (_last_post_spike_time s')).

(** The clock values of the calls do not decrease, starting from [t]. *)
Fixpoint chronological (t : R) (cs : list Call) : Prop :=
  match cs with
  | [] => True
  | c :: cs' =>
      (t <= Network.time (call_net c))%R /\
      chronological (Network.time (call_net c)) cs'
  end.

(** Whether [n] picked entries broadcast against a matrix of [Q] columns:
    the sizes must be equal or one of them must be 1. *)
Definition picked_broadcasts (n Q : nat) : bool :=
  (n =? Q) || (n =? 1) || (Q =? 1).

(** The weights the numeric scenario expects after its second and third
    step. *)
Definition expected_second : R :=
  (1 / 2 - 1 / 10 * (1 / 2 - 0) * exp (- (10 - 5) / 20))%R.
Definition expected_third : R :=
  (expected_second + 1 / 10 * (1 - expected_second) * exp (- (12 - 10) / 20))%R.

(** The two exceptions the tensor library raises in the update hooks. *)
Definition broadcast_error : Exn :=
  RuntimeError "The size of tensor a must match the size of tensor b".
Definition in_place_error : Exn :=
  RuntimeError "output shape doesn't match the broadcast shape".

(** ** Concrete states *)

Definition vector {A} (l : list A) : Tensor A := mkTensor [length l] l.
Definition matrix {A} (r c : nat) (l : list A) : Tensor A := mkTensor [r; c] l.

(** A layer of [length mask] neurons with the given firing mask. *)
Definition layer (mask : list bool) : Layer.t :=
  Layer.mk (length mask) (vector (List.repeat 0%R (length mask)))
    (vector (List.repeat 0%R (length mask))) (vector mask).

(** The caller assigning the four rule parameters after construction. *)
Definition assign_rates (tm tp lm lp : R) (s : Synapse) : Synapse :=
  mkSynapse (weights s) (w_min s) (w_max s) (_last_pre_spike_time s)
    (_last_post_spike_time s) (static s) (Some tm) (Some tp) (Some lm) (Some lp).

Definition set_static (b : bool) (s : Synapse) : Synapse :=
  mkSynapse (weights s) (w_min s) (w_max s) (_last_pre_spike_time s)
    (_last_post_spike_time s) b
    (tau_m s) (tau_p s) (learn_rate_m s) (learn_rate_p s).

(** A non-static synapse with bounds 0 and 1, both time constants 20 and
    both learning rates 0.1. *)
Definition stdp (ws last_pre last_post : Tensor R) : Synapse :=
  mkSynapse ws 0 1 last_pre last_post false
    (Some 20%R) (Some 20%R) (Some (1 / 10)%R) (Some (1 / 10)%R).

(** Two pre and two post neurons, all weights 0.5; both post neurons fired
    at time 1 and both pre neurons fire now, at time 2. *)
Definition pre_2x2 : World :=
  mkWorld (layer [true; true]) (layer [false; false]) (Network.mk 2)
    (stdp (matrix 2 2 [1 / 2; 1 / 2; 1 / 2; 1 / 2]%R)
          (vector [-1; -1]%R) (vector [1; 1]%R)).

(** The mirror image: both pre neurons fired at time 1, both post neurons
    fire at time 2. *)
Definition post_2x2 : World :=
  mkWorld (layer [false; false]) (layer [true; true]) (Network.mk 2)
    (stdp (matrix 2 2 [1 / 2; 1 / 2; 1 / 2; 1 / 2]%R)
          (vector [1; 1]%R) (vector [-1; -1]%R)).

(** The numeric scenario: one pre and one post neuron, weight 0.5. *)
Definition scenario_start : World :=
  mkWorld (layer [false]) (layer [false]) (Network.mk 0)
    (stdp (matrix 1 1 [1 / 2]%R) (vector [-1]%R) (vector [-1]%R)).

Definition post_at_5 : Call :=
  mkCall PostSpikes (layer [false]) (layer [true]) (Network.mk 5).
Definition pre_at_10 : Call :=
  mkCall PreSpikes (layer [true]) (layer [false]) (Network.mk 10).
Definition post_at_12 : Call :=
  mkCall PostSpikes (layer [false]) (layer [true]) (Network.mk 12).

Definition scenario_recorded (last_pre last_post t : R) (pre post : bool) : World :=
  mkWorld (layer [pre]) (layer [post]) (Network.mk t)
    (stdp (matrix 1 1 [1 / 2]%R) (vector [last_pre]) (vector [last_post])).

(** One pre and two post neurons, as [__init__] leaves them. *)
Definition fresh_1x2 : World :=
  mkWorld (layer [true]) (layer [false; false]) (Network.mk 1)
    (mkSynapse (matrix 1 2 [1 / 2; 1 / 2]%R) 0 1
       (vector [-1]%R) (vector [-1; -1]%R) false None None None None).

(** A frozen synapse holding a weight above [w_max]. *)
Definition frozen_high : World :=
  mkWorld (layer [true]) (layer [true]) (Network.mk 1)
    (set_static true (stdp (matrix 1 1 [2]%R) (vector [-1]%R) (vector [-1]%R))).

(** One pre and two post neurons; the pre neuron and the second post
    neuron have never fired; the pre neuron and the first post neuron fire
    now, at time 3. *)
Definition half_silent : World :=
  mkWorld (layer [true]) (layer [true; false]) (Network.mk 3)
    (stdp (matrix 1 2 [1 / 2; 1 / 2]%R) (vector [-1]%R) (vector [1; -1]%R)).

(** Outputs [1, 2] in front of the weights [[1, 2], [3, 4]]. *)
Definition forward_2x2 : World :=
  mkWorld (Layer.mk 2 (vector [1; 2]%R) (vector [0; 0]%R) (vector [false; false]))
          (layer [false; false]) (Network.mk 0)
          (stdp (matrix 2 2 [1; 2; 3; 4]%R) (vector [-1; -1]%R) (vector [-1; -1]%R)).

(** A 1 by 2 weight matrix with an entry above [w_max], as constructed and
    after the caller has assigned the rule parameters. *)
Definition high_1x2 : World :=
  mkWorld (layer [true]) (layer [false; false]) (Network.mk 1)
    (mkSynapse (matrix 1 2 [2; 1 / 2]%R) 0 1
       (vector [-1]%R) (vector [-1; -1]%R) false None None None None).

Definition high_1x2_ready : World :=
  on_self (assign_rates 20 20 (1 / 10) (1 / 10)) high_1x2.

(** One pre and one post neuron that never fired and both fire now, at
    time 3. *)
Definition both_fire : World :=
  mkWorld (layer [true]) (layer [true]) (Network.mk 3)
    (stdp (matrix 1 1 [1 / 2]%R) (vector [-1]%R) (vector [-1]%R)).


(** The weights [[1, 2], [3, 4]] behind the outputs [3, 1], and behind
    [11, 7], which is twice [1, 2] plus three times [3, 1]. *)
Definition forward_2x2_b : World :=
  mkWorld (Layer.mk 2 (vector [3; 1]%R) (vector [0; 0]%R) (vector [false; false]))
          (layer [false; false]) (Network.mk 0)
          (stdp (matrix 2 2 [1; 2; 3; 4]%R) (vector [-1; -1]%R) (vector [-1; -1]%R)).

Definition forward_2x2_sum : World :=
  mkWorld (Layer.mk 2 (vector [11; 7]%R) (vector [0; 0]%R) (vector [false; false]))
          (layer [false; false]) (Network.mk 0)
          (stdp (matrix 2 2 [1; 2; 3; 4]%R) (vector [-1; -1]%R) (vector [-1; -1]%R)).

(** * Facts about the tensor operations *)

Lemma Rleb_true (x y : R) : (x <= y)%R -> Rleb x y = true.
Proof.
  intros Hle. unfold Rleb. destruct (Rle_dec x y); [reflexivity|contradiction].
Qed.

Lemma Rleb_false (x y : R) : (y < x)%R -> Rleb x y = false.
Proof.
  intros Hlt. unfold Rleb. destruct (Rle_dec x y); [lra|reflexivity].
Qed.

Section ShapeFacts.

Lemma broadcast_rev_length (r1 r2 r : list nat) :
  broadcast_rev r1 r2 = Some r -> length r = Nat.max (length r1) (length r2).
Proof.
  revert r2 r. induction r1 as [|a r1 IH]; intros [|b r2] r; simpl.
  - intros [= <-]. reflexivity.
  - intros [= <-]. reflexivity.
  - intros [= <-]. reflexivity.
  - destruct (broadcast_rev r1 r2) as [r'|] eqn:E.
    + specialize (IH _ _ E).
      destruct (a =? b); [|destruct (a =? 1); [|destruct (b =? 1)]];
        simpl; intros [= <-]; simpl; lia.
    + destruct (a =? b); [|destruct (a =? 1); [|destruct (b =? 1)]];
        simpl; discriminate.
Qed.

Lemma broadcast_shapes_length (s1 s2 s : list nat) :
  broadcast_shapes s1 s2 = Some s -> length s = Nat.max (length s1) (length s2).
Proof.
  unfold broadcast_shapes.
  destruct (broadcast_rev (rev s1) (rev s2)) as [r|] eqn:E; simpl; [|discriminate].
  intros [= <-]. apply broadcast_rev_length in E.
  rewrite length_rev, E, !length_rev. reflexivity.
Qed.

Lemma same_shape_true (s1 s2 : list nat) : same_shape s1 s2 = true -> s1 = s2.
Proof.
  unfold same_shape. destruct (list_eq_dec Nat.eq_dec s1 s2); [auto|discriminate].
Qed.

Context {A B C : Type} `{Default A} `{Default B}.

Lemma broadcast2_ndim (f : A -> B -> C) (a : Tensor A) (b : Tensor B) (c : Tensor C) :
  broadcast2 f a b = inr c -> ndim c = Nat.max (ndim a) (ndim b).
Proof.
  unfold broadcast2.
  destruct (broadcast_shapes (shape a) (shape b)) as [s|] eqn:E; [|discriminate].
  intros [= <-]. apply broadcast_shapes_length in E. exact E.
Qed.

Lemma inplace2_shape (f : A -> B -> A) (a : Tensor A) (b : Tensor B) (c : Tensor A) :
  inplace2 f a b = inr c -> shape c = shape a /\ c = zip_at f (shape a) a b.
Proof.
  unfold inplace2.
  destruct (broadcast_shapes (shape a) (shape b)) as [s|] eqn:E; [|discriminate].
  destruct (same_shape s (shape a)) eqn:Es; [|discriminate].
  apply same_shape_true in Es. subst s. intros [= <-]. split; reflexivity.
Qed.

(** An in-place operation whose right operand has more dimensions than
    its left one always raises. *)
Lemma inplace2_rank (f : A -> B -> A) (a : Tensor A) (b : Tensor B) :
  ndim a < ndim b -> is_error (inplace2 f a b) = true.
Proof.
  unfold inplace2. intros Hlt.
  destruct (broadcast_shapes (shape a) (shape b)) as [s|] eqn:E; [|reflexivity].
  destruct (same_shape s (shape a)) eqn:Es; [|reflexivity].
  apply same_shape_true in Es. apply broadcast_shapes_length in E.
  subst s. unfold ndim in Hlt. lia.
Qed.

End ShapeFacts.

Lemma tmap_ndim {A B} (f : A -> B) (x : Tensor A) : ndim (tmap f x) = ndim x.
Proof. reflexivity. Qed.

Lemma ger_ndim (a b c : Tensor bool) : ger a b = inr c -> ndim c = 2.
Proof.
  unfold ger. destruct (shape a) as [|n [|? ?]]; try discriminate.
  destruct (shape b) as [|m [|? ?]]; try discriminate.
  intros [= <-]. reflexivity.
Qed.

Lemma repeat_ndim {A} `{Default A} (x : Tensor A) (sizes : list nat) (c : Tensor A) :
  repeat x sizes = inr c -> ndim c = length sizes.
Proof.
  unfold repeat. destruct (length sizes <? ndim x) eqn:E; [discriminate|].
  apply Nat.ltb_ge in E. intros [= <-]. unfold ndim, tabulate in *. simpl.
  rewrite length_map, length_combine, length_app, repeat_length. lia.
Qed.

Lemma t_ndim {A} `{Default A} (x c : Tensor A) : t x = inr c -> ndim c = ndim x.
Proof.
  unfold t, ndim. destruct (shape x) as [|r [|cc [|? ?]]] eqn:E; try discriminate;
    intros [= <-]; simpl; rewrite ?E; reflexivity.
Qed.

Lemma getitem_mask_ndim {A} (x : Tensor A) (m : Tensor bool) (p : Tensor A) :
  getitem_mask x m = inr p -> ndim p = S (ndim x - ndim m).
Proof.
  unfold getitem_mask. destruct (mask_fits x m); [|discriminate].
  intros [= <-]. unfold ndim, block. simpl. rewrite length_skipn. reflexivity.
Qed.

Lemma clamp_within (lo hi : R) (v : Tensor R) :
  (lo <= hi)%R -> Forall (fun x => lo <= x <= hi)%R (data (clamp_ lo hi v)).
Proof.
  intros Hle. unfold clamp_, tmap. simpl. apply Forall_forall.
  intros x Hx. apply in_map_iff in Hx. destruct Hx as (y & <- & _).
  unfold Rmin, Rmax.
  destruct (Rle_dec y lo); destruct (Rle_dec _ hi); lra.
Qed.

(** ** Reading a tabulated tensor *)

Section Indexing.

Lemma nth_map_in {A B} (f : A -> B) (l : list A) (n : nat) (d : B) (d' : A) :
  n < length l -> nth n (map f l) d = f (nth n l d').
Proof.
  intros Hn. rewrite (nth_indep _ d (f d')) by (rewrite length_map; exact Hn).
  apply map_nth.
Qed.

Lemma nth_map_seq {B} (g : nat -> B) (n k : nat) (d : B) :
  k < n -> nth k (map g (seq 0 n)) d = g k.
Proof.
  intros Hk. rewrite nth_map_in with (d' := 0) by (rewrite length_seq; exact Hk).
  rewrite seq_nth by exact Hk. reflexivity.
Qed.

Lemma in_indices_cons (n : nat) (s idx : list nat) :
  In idx (indices (n :: s)) <->
  exists k idx', idx = k :: idx' /\ k < n /\ In idx' (indices s).
Proof.
  simpl. rewrite in_concat. split.
  - intros (l & Hl & Hin). apply in_map_iff in Hl. destruct Hl as (k & <- & Hk).
    apply in_map_iff in Hin. destruct Hin as (idx' & <- & Hin).
    apply in_seq in Hk. exists k, idx'. repeat split; [lia|assumption].
  - intros (k & idx' & -> & Hk & Hin).
    exists (map (cons k) (indices s)). split.
    + apply in_map_iff. exists k. split; [reflexivity|]. apply in_seq. lia.
    + apply in_map. assumption.
Qed.

Lemma length_indices (s : list nat) : length (indices s) = numel s.
Proof.
  induction s as [|n s IH]; [reflexivity|].
  simpl. generalize 0 as start.
  induction n as [|n IHn]; intros start; simpl; [reflexivity|].
  rewrite length_app, length_map, IHn, IH. reflexivity.
Qed.

Lemma in_indices_length (s idx : list nat) :
  In idx (indices s) -> length idx = length s.
Proof.
  revert idx. induction s as [|n s IH]; intros idx Hin.
  - destruct Hin as [<-|[]]. reflexivity.
  - apply in_indices_cons in Hin. destruct Hin as (k & idx' & -> & _ & Hin).
    simpl. f_equal. apply IH. assumption.
Qed.

(** Reading a concatenation of blocks of one length [m]. *)
Lemma nth_concat_blocks {A} (L : list (list A)) (m k r : nat) (d : A) :
  (forall l, In l L -> length l = m) -> r < m ->
  nth (k * m + r) (concat L) d = nth r (nth k L []) d.
Proof.
  revert k. induction L as [|l L IH]; intros k Hlen Hr.
  - simpl. destruct (k * m + r); destruct k; destruct r; reflexivity.
  - assert (Hl : length l = m) by (apply Hlen; left; reflexivity).
    simpl. destruct k as [|k].
    + simpl. apply app_nth1. lia.
    + rewrite app_nth2 by (simpl; lia).
      replace (S k * m + r - length l) with (k * m + r) by (simpl; lia).
      apply IH; [|assumption]. intros l' Hl'. apply Hlen. right. assumption.
Qed.

Lemma ravel_lt (s idx : list nat) : In idx (indices s) -> ravel s idx < numel s.
Proof.
  revert idx. induction s as [|n s IH]; intros idx Hin.
  - simpl. lia.
  - apply in_indices_cons in Hin. destruct Hin as (k & idx' & -> & Hk & Hin).
    specialize (IH _ Hin). simpl. nia.
Qed.

(** [ravel] is the position of an index tuple in [indices]. *)
Lemma nth_indices (s idx : list nat) :
  In idx (indices s) -> nth (ravel s idx) (indices s) [] = idx.
Proof.
  revert idx. induction s as [|n s IH]; intros idx Hin.
  - simpl in Hin. destruct Hin as [<-|[]]. reflexivity.
  - apply in_indices_cons in Hin. destruct Hin as (k & idx' & -> & Hk & Hin).
    simpl. rewrite nth_concat_blocks with (m := numel s).
    + rewrite nth_map_seq by assumption.
      rewrite nth_map_in with (d' := []).
      * rewrite IH by assumption. reflexivity.
      * rewrite length_indices. apply ravel_lt. assumption.
    + intros l Hl. apply in_map_iff in Hl. destruct Hl as (j & <- & _).
      rewrite length_map. apply length_indices.
    + apply ravel_lt. assumption.
Qed.

Lemma get_tabulate {A} `{Default A} (s : list nat) (f : list nat -> A) (idx : list nat) :
  In idx (indices s) -> get (tabulate s f) idx = f idx.
Proof.
  intros Hin. unfold get, tabulate. simpl.
  rewrite nth_map_in with (d' := []).
  - rewrite nth_indices by assumption. reflexivity.
  - rewrite length_indices. apply ravel_lt. assumption.
Qed.

Lemma expand_index_same (s idx : list nat) :
  In idx (indices s) -> expand_index s idx = idx.
Proof.
  intros Hin. unfold expand_index.
  rewrite (in_indices_length _ _ Hin), Nat.sub_diag. simpl.
  revert idx Hin. induction s as [|n s IH]; intros idx Hin.
  - destruct Hin as [<-|[]]. reflexivity.
  - apply in_indices_cons in Hin. destruct Hin as (k & idx' & -> & Hk & Hin).
    simpl. rewrite IH by assumption. f_equal.
    destruct (n =? 1) eqn:E; [|reflexivity]. apply Nat.eqb_eq in E. lia.
Qed.

Lemma get_zip_at {A B C} `{Default A} `{Default B} `{Default C}
    (f : A -> B -> C) (a : Tensor A) (b : Tensor B) (idx : list nat) :
  In idx (indices (shape a)) ->
  get (zip_at f (shape a) a b) idx
  = f (get a idx) (get b (expand_index (shape b) idx)).
Proof.
  intros Hin. unfold zip_at. rewrite get_tabulate by assumption.
  rewrite expand_index_same by assumption. reflexivity.
Qed.

Lemma ger_get (a b c : Tensor bool) (p q : nat) :
  ger a b = inr c -> In [p; q] (indices (shape c)) ->
  get c [p; q] = get a [p] && get b [q].
Proof.
  unfold ger. destruct (shape a) as [|n [|? ?]]; try discriminate.
  destruct (shape b) as [|m [|? ?]]; try discriminate.
  intros [= <-] Hin. simpl shape in Hin. rewrite get_tabulate by assumption.
  reflexivity.
Qed.

(** A neuron whose recorded time is negative is not among the fired ones. *)
Lemma never_fired_inactive (x : Tensor R) (idx : list nat) :
  (get x idx < 0)%R -> get (tmap (Rleb 0) x) idx = false.
Proof.
  unfold get, tmap. simpl. set (k := ravel (shape x) idx). intros Hneg.
  destruct (lt_dec k (length (data x))) as [Hk|Hk].
  - rewrite nth_map_in with (d' := (dflt : R)) by assumption.
    apply Rleb_false. assumption.
  - apply nth_overflow. rewrite length_map. lia.
Qed.

End Indexing.

(** ** Elements of the results *)

Lemma in_indices_1 (n q : nat) : In [q] (indices [n]) <-> q < n.
Proof.
  rewrite in_indices_cons. split.
  - intros (k & idx' & [= -> <-] & Hk & _). assumption.
  - intros Hq. exists q, []. repeat split; [assumption|]. simpl. auto.
Qed.

Lemma in_indices_2 (n m p q : nat) :
  In [p; q] (indices [n; m]) <-> p < n /\ q < m.
Proof.
  rewrite in_indices_cons. split.
  - intros (k & idx' & [= -> <-] & Hk & Hin).
    apply in_indices_1 in Hin. split; assumption.
  - intros [Hp Hq]. exists p, [q]. repeat split; [assumption|].
    apply in_indices_1. assumption.
Qed.

Lemma broadcast_rev_same (r : list nat) : broadcast_rev r r = Some r.
Proof.
  induction r as [|a r IH]; [reflexivity|].
  simpl. rewrite Nat.eqb_refl, IH. reflexivity.
Qed.

Lemma broadcast_shapes_same (s : list nat) : broadcast_shapes s s = Some s.
Proof.
  unfold broadcast_shapes. rewrite broadcast_rev_same. simpl.
  rewrite rev_involutive. reflexivity.
Qed.

Lemma get_tmap {A B} `{Default A} `{Default B} (f : A -> B) (x : Tensor A)
    (idx : list nat) :
  length (data x) = numel (shape x) -> In idx (indices (shape x)) ->
  get (tmap f x) idx = f (get x idx).
Proof.
  intros Hlen Hin. unfold get, tmap. simpl.
  apply nth_map_in. rewrite Hlen. apply ravel_lt. assumption.
Qed.

(** A binary operation on two tensors of one shape works elementwise. *)
Lemma get_broadcast2_same {A B C} `{Default A} `{Default B} `{Default C}
    (f : A -> B -> C) (a : Tensor A) (b : Tensor B) (c : Tensor C) (idx : list nat) :
  shape b = shape a -> broadcast2 f a b = inr c ->
  shape c = shape a /\ length (data c) = numel (shape a) /\
  (In idx (indices (shape a)) -> get c idx = f (get a idx) (get b idx)).
Proof.
  intros Hs. unfold broadcast2. rewrite Hs, broadcast_shapes_same.
  intros [= <-]. split; [reflexivity|].
  split; [simpl; rewrite length_map; apply length_indices|]. intros Hin.
  unfold zip_at. rewrite get_tabulate by assumption.
  rewrite Hs, expand_index_same by assumption. reflexivity.
Qed.

Lemma inplace2_same {A B} `{Default A} `{Default B}
    (f : A -> B -> A) (a : Tensor A) (b : Tensor B) :
  shape b = shape a -> inplace2 f a b = inr (zip_at f (shape a) a b).
Proof.
  intros Hs. unfold inplace2. rewrite Hs, broadcast_shapes_same.
  unfold same_shape.
  destruct (list_eq_dec Nat.eq_dec (shape a) (shape a)); [reflexivity|contradiction].
Qed.

(** Row [k] of [x.repeat(r, 1)] is [x], for a 1-D [x]. *)
Lemma repeat_rows {A} `{Default A} (x : Tensor A) (n r : nat) :
  shape x = [n] ->
  exists c, repeat x [r; 1] = inr c /\ shape c = [r; n] /\
    forall k j, k < r -> j < n -> get c [k; j] = get x [j].
Proof.
  intros Hx. unfold repeat, ndim. rewrite Hx. simpl.
  rewrite Nat.mul_1_r, Nat.add_0_r. eexists. split; [reflexivity|].
  split; [reflexivity|]. intros k j Hk Hj.
  rewrite get_tabulate by (apply in_indices_2; split; assumption).
  simpl. rewrite Nat.mod_small by assumption. reflexivity.
Qed.

Lemma t_matrix {A} `{Default A} (x : Tensor A) (r c : nat) :
  shape x = [r; c] ->
  exists y, t x = inr y /\ shape y = [c; r] /\
    forall k j, k < c -> j < r -> get y [k; j] = get x [j; k].
Proof.
  intros Hx. unfold t. rewrite Hx. eexists. split; [reflexivity|].
  split; [reflexivity|]. intros k j Hk Hj.
  rewrite get_tabulate by (apply in_indices_2; split; assumption).
  reflexivity.
Qed.

Lemma ger_vectors (a b : Tensor bool) (n m : nat) :
  shape a = [n] -> shape b = [m] ->
  exists c, ger a b = inr c /\ shape c = [n; m] /\
    forall p q, p < n -> q < m -> get c [p; q] = get a [p] && get b [q].
Proof.
  intros Ha Hb. unfold ger. rewrite Ha, Hb. eexists. split; [reflexivity|].
  split; [reflexivity|]. intros p q Hp Hq.
  rewrite get_tabulate by (apply in_indices_2; split; assumption).
  reflexivity.
Qed.

Lemma fill_nth {A} (mask : list bool) (v : A) (l : list A) (k : nat) (d : A) :
  length mask = length l ->
  nth k (fill mask 1 v l) d = if nth k mask false then v else nth k l d.
Proof.
  revert l k. induction mask as [|b mask IH]; intros l k Hlen.
  - simpl. destruct k; reflexivity.
  - destruct l as [|x l]; [discriminate|]. simpl in Hlen.
    injection Hlen as Hlen. simpl fill.
    destruct k as [|k].
    + destruct b; reflexivity.
    + destruct b; simpl; apply IH; assumption.
Qed.

Lemma length_fill {A} (mask : list bool) (v : A) (l : list A) :
  length mask = length l -> length (fill mask 1 v l) = length l.
Proof.
  revert l. induction mask as [|b mask IH]; intros l Hl; [reflexivity|].
  destruct l as [|y l]; [discriminate|]. simpl in Hl. injection Hl as Hl.
  simpl fill. destruct b; simpl; rewrite IH by assumption; reflexivity.
Qed.

(** [x[m] = v] on a vector: the masked entries become [v]. *)
Lemma setitem_mask_scalar_vector {A} `{Default A} (x : Tensor A) (m : Tensor bool)
    (v : A) (n : nat) :
  vector_of n x -> vector_of n m ->
  exists y, setitem_mask_scalar x m v = inr y /\ vector_of n y /\
    forall k, get y [k] = if get m [k] then v else get x [k].
Proof.
  intros [Hx Hlx] [Hm Hlm]. unfold setitem_mask_scalar, mask_fits, block, ndim.
  rewrite Hx, Hm. simpl. unfold same_shape.
  destruct (list_eq_dec Nat.eq_dec [n] [n]) as [_|Hne]; [|contradiction].
  eexists. split; [reflexivity|]. split.
  - split; [reflexivity|]. simpl. rewrite length_fill by congruence. exact Hlx.
  - intros k. unfold get. simpl. rewrite Hx, Hm. simpl.
    rewrite Nat.mul_1_r, Nat.add_0_r. apply fill_nth. congruence.
Qed.

(** [torch.matmul] of a vector and a matrix is the textbook product. *)
Lemma matmul_vec_mat (x m : Tensor R) (P Q : nat) :
  shape x = [P] -> shape m = [P; Q] -> matmul x m = inr (vec_mat P Q x m).
Proof.
  intros Hx Hm. unfold matmul, ndim. rewrite Hx, Hm. simpl.
  rewrite Nat.eqb_refl. unfold broadcast_shapes. simpl.
  rewrite app_nil_r, map_map.
  unfold vec_mat, tabulate. f_equal. f_equal.
  apply map_ext_in. intros idx Hin.
  apply (in_indices_cons Q [] idx) in Hin.
  destruct Hin as (q & idx' & -> & Hq & Hin).
  simpl. f_equal. apply map_ext. intros p.
  unfold get. simpl. rewrite Hx, Hm. simpl. reflexivity.
Qed.

(** * Facts about the hooks *)

Ltac run :=
  unfold bind, gets, lift, modify, ret, getattr, ExponentialSTDPSynapse.time,
    AbstractSynapse.time; simpl.

(** Case analysis on the next operation that may raise. *)
Ltac next :=
  match goal with
  | |- context [match ?r with inl _ => _ | inr _ => _ end] =>
      lazymatch r with
      | context [match _ with inl _ => _ | inr _ => _ end] => fail
      | _ => let E := fresh "E" in destruct r as [?e|?v] eqn:E; simpl
      end
  | |- context [match ?r with Some _ => _ | None => _ end] =>
      lazymatch r with
      | context [match _ with _ => _ end] => fail
      | _ => destruct r eqn:?; simpl
      end
  end.

Ltac track_ndim :=
  repeat match goal with
         | H : ger _ _ = inr _ |- _ => apply ger_ndim in H
         | H : repeat _ _ = inr _ |- _ => apply repeat_ndim in H
         | H : t _ = inr _ |- _ => apply t_ndim in H
         | H : sub _ _ = inr _ |- _ => apply broadcast2_ndim in H
         | H : iand _ _ = inr _ |- _ =>
             apply inplace2_shape in H; destruct H as [H _]
         end.

(** Once the masked entries are picked from a weight matrix, the in-place
    update of the picked (1-D) entries by the (2-D) change cannot succeed. *)
Ltac rank_clash :=
  exfalso;
  repeat match goal with
         | H : inr _ = inr _ |- _ => injection H as H; subst
         end;
  match goal with
  | H : inplace2 ?f ?p ?d = inr _ |- _ =>
      let Hr := fresh "Hr" in
      assert (Hr : ndim p < ndim d);
      [ | apply (inplace2_rank f) in Hr; rewrite H in Hr; discriminate ]
  end;
  repeat match goal with
         | H : getitem_mask _ _ = inr _ |- _ => apply getitem_mask_ndim in H
         | H : mul _ _ = inr _ |- _ => apply broadcast2_ndim in H
         end;
  rewrite ?tmap_ndim in *; lia.

(** Evaluation of the model on concrete states; the reals stay symbolic
    and their comparisons are settled by [lra]. *)
Ltac eval_model :=
  cbv -[Rleb Rle_dec Rplus Rminus Rmult Ropp Rdiv Rinv IZR exp Rmin Rmax Rlt Rle].

Ltac decide_Rleb :=
  repeat match goal with
         | |- context [Rleb ?x ?y] =>
             first [ rewrite (Rleb_true x y) by lra
                   | rewrite (Rleb_false x y) by lra ]
         end.

Ltac eval_hook := eval_model; decide_Rleb; eval_model.

Section HookFacts.

Variable w : World.

Lemma pre_spike_pairs_frame :
  same_but_times (self w) (self (snd (ExponentialSTDPSynapse.pre_spike_pairs w))).
Proof.
  unfold ExponentialSTDPSynapse.pre_spike_pairs. run.
  repeat (next; try (unfold same_but_times; simpl; tauto)).
Qed.

Lemma post_spike_pairs_frame :
  same_but_times (self w) (self (snd (ExponentialSTDPSynapse.post_spike_pairs w))).
Proof.
  unfold ExponentialSTDPSynapse.post_spike_pairs. run.
  repeat (next; try (unfold same_but_times; simpl; tauto)).
Qed.

Lemma pre_spike_pairs_ndim (active : Tensor bool) (dt : Tensor R) (w' : World) :
  ExponentialSTDPSynapse.pre_spike_pairs w = (inr (active, dt), w') ->
  ndim active = 2 /\ ndim dt = 2.
Proof.
  unfold ExponentialSTDPSynapse.pre_spike_pairs. run.
  repeat (next; try discriminate).
  intros [= <- <- <-]. track_ndim.
  unfold ndim in *; simpl in *. split; [congruence|lia].
Qed.

Lemma post_spike_pairs_ndim (active : Tensor bool) (dt : Tensor R) (w' : World) :
  ExponentialSTDPSynapse.post_spike_pairs w = (inr (active, dt), w') ->
  ndim active = 2 /\ ndim dt = 2.
Proof.
  unfold ExponentialSTDPSynapse.post_spike_pairs. run.
  repeat (next; try discriminate).
  intros [= <- <- <-]. track_ndim.
  unfold ndim in *; simpl in *. split; [congruence|lia].
Qed.

(** A post neuron that never fired is in no pair of a pre-spike update. *)
Lemma pre_spike_pairs_sentinel (active : Tensor bool) (dt : Tensor R)
    (w1 : World) (p q : nat) :
  ExponentialSTDPSynapse.pre_spike_pairs w = (inr (active, dt), w1) ->
  (get (_last_post_spike_time (self w)) [q] < 0)%R ->
  In [p; q] (indices (shape active)) ->
  get active [p; q] = false.
Proof.
  unfold ExponentialSTDPSynapse.pre_spike_pairs. run.
  repeat (next; try discriminate).
  intros [= <- <- <-] Hneg Hin.
  match goal with H : iand _ _ = inr _ |- _ =>
    apply inplace2_shape in H; destruct H as [Hs Hv] end.
  rewrite Hs in Hin. rewrite Hv.
  rewrite get_zip_at by assumption.
  match goal with H : ger _ _ = inr _ |- _ =>
    rewrite (ger_get _ _ _ _ _ H Hin) end.
  rewrite (never_fired_inactive _ _ Hneg). rewrite andb_false_r. reflexivity.
Qed.

(** A pre neuron that never fired is in no pair of a post-spike update. *)
Lemma post_spike_pairs_sentinel (active : Tensor bool) (dt : Tensor R)
    (w1 : World) (p q : nat) :
  ExponentialSTDPSynapse.post_spike_pairs w = (inr (active, dt), w1) ->
  (get (_last_pre_spike_time (self w)) [p] < 0)%R ->
  In [p; q] (indices (shape active)) ->
  get active [p; q] = false.
Proof.
  unfold ExponentialSTDPSynapse.post_spike_pairs. run.
  repeat (next; try discriminate).
  intros [= <- <- <-] Hneg Hin.
  match goal with H : iand _ _ = inr _ |- _ =>
    apply inplace2_shape in H; destruct H as [Hs Hv] end.
  rewrite Hs in Hin. rewrite Hv.
  rewrite get_zip_at by assumption.
  match goal with H : ger _ _ = inr _ |- _ =>
    rewrite (ger_get _ _ _ _ _ H Hin) end.
  rewrite (never_fired_inactive _ _ Hneg). reflexivity.
Qed.

(** On a weight matrix a non-static pre-spike update is always left by
    an exception, raised before any weight is assigned. *)
Lemma update_on_pre_spikes_stops :
  static (self w) = false -> ndim (weights (self w)) = 2 ->
  is_error (fst (ExponentialSTDPSynapse.update_on_pre_spikes w)) = true /\
  same_but_times (self w)
    (self (snd (ExponentialSTDPSynapse.update_on_pre_spikes w))).
Proof.
  intros Hs Hw.
  pose proof pre_spike_pairs_frame as Hframe.
  unfold ExponentialSTDPSynapse.update_on_pre_spikes. run. rewrite Hs.
  destruct (ExponentialSTDPSynapse.pre_spike_pairs w)
    as [[e|[active dt]] w1] eqn:E; simpl in *; [tauto|].
  apply pre_spike_pairs_ndim in E. destruct E as [Ha Hd].
  assert (Hw1 : ndim (weights (self w1)) = 2)
    by (unfold ndim; destruct Hframe as [-> _]; exact Hw).
  repeat (next; try tauto).
  unfold isub in *. rank_clash.
Qed.

Lemma update_on_post_spikes_stops :
  static (self w) = false -> ndim (weights (self w)) = 2 ->
  is_error (fst (ExponentialSTDPSynapse.update_on_post_spikes w)) = true /\
  same_but_times (self w)
    (self (snd (ExponentialSTDPSynapse.update_on_post_spikes w))).
Proof.
  intros Hs Hw.
  pose proof post_spike_pairs_frame as Hframe.
  unfold ExponentialSTDPSynapse.update_on_post_spikes. run. rewrite Hs.
  destruct (ExponentialSTDPSynapse.post_spike_pairs w)
    as [[e|[active dt]] w1] eqn:E; simpl in *; [tauto|].
  apply post_spike_pairs_ndim in E. destruct E as [Ha Hd].
  assert (Hw1 : ndim (weights (self w1)) = 2)
    by (unfold ndim; destruct Hframe as [-> _]; exact Hw).
  repeat (next; try tauto).
  unfold iadd in *. rank_clash.
Qed.




(** On a weight matrix neither hook changes the weights, static or not. *)
Lemma update_on_pre_spikes_matrix :
  ndim (weights (self w)) = 2 ->
  weights (self (snd (ExponentialSTDPSynapse.update_on_pre_spikes w)))
  = weights (self w).
Proof.
  intros Hw. destruct (static (self w)) eqn:Hs.
  - unfold ExponentialSTDPSynapse.update_on_pre_spikes. run. rewrite Hs.
    reflexivity.
  - destruct (update_on_pre_spikes_stops Hs Hw) as [_ [Heq _]]. exact Heq.
Qed.

Lemma update_on_post_spikes_matrix :
  ndim (weights (self w)) = 2 ->
  weights (self (snd (ExponentialSTDPSynapse.update_on_post_spikes w)))
  = weights (self w).
Proof.
  intros Hw. destruct (static (self w)) eqn:Hs.
  - unfold ExponentialSTDPSynapse.update_on_post_spikes. run. rewrite Hs.
    reflexivity.
  - destruct (update_on_post_spikes_stops Hs Hw) as [_ [Heq _]]. exact Heq.
Qed.


End HookFacts.

(** ** The pairs of an update, element by element

    For layers and spike-time vectors of the sizes the constructor sets
    up: [P] pre neurons, [Q] post neurons. *)

Section Pairs.

Variable w : World.
Variables P Q : nat.
Variable tau : R.

Hypothesis last_pre_P : vector_of P (_last_pre_spike_time (self w)).
Hypothesis last_post_Q : vector_of Q (_last_post_spike_time (self w)).
Hypothesis pre_size_P : Layer.size (pre_layer w) = P.
Hypothesis post_size_Q : Layer.size (post_layer w) = Q.

(** The two operands of the time difference, from the two vectors [a]
    (one row per entry) and [b] (one column per entry). *)
Lemma rows_and_columns (a b : Tensor R) :
  shape a = [P] -> shape b = [Q] ->
  exists ra rat rb,
    repeat a [Q; 1] = inr ra /\ t ra = inr rat /\ repeat b [P; 1] = inr rb /\
    shape rat = [P; Q] /\ shape rb = [P; Q] /\
    forall p q, p < P -> q < Q ->
      get rat [p; q] = get a [p] /\ get rb [p; q] = get b [q].
Proof.
  intros Ha Hb.
  destruct (repeat_rows a P Q Ha) as (ra & Hra & Hsra & Hgra).
  destruct (t_matrix ra Q P Hsra) as (rat & Hrat & Hsrat & Hgrat).
  destruct (repeat_rows b Q P Hb) as (rb & Hrb & Hsrb & Hgrb).
  exists ra, rat, rb. repeat split; try assumption.
  - rewrite (Hgrat p q H H0). apply Hgra; assumption.
  - apply Hgrb; assumption.
Qed.

(** The masked pairs within the window. *)
Lemma windowed (a0 : Tensor bool) (dt : Tensor R) :
  shape a0 = [P; Q] -> shape dt = [P; Q] -> length (data dt) = numel (shape dt) ->
  exists active,
    iand a0 (tmap (fun d => Rleb d (2 * tau)) dt) = inr active /\
    shape active = [P; Q] /\
    forall p q, p < P -> q < Q ->
      get active [p; q] = get a0 [p; q] && Rleb (get dt [p; q]) (2 * tau).
Proof.
  intros Ha Hd Hl. eexists. split.
  - unfold iand. apply inplace2_same. simpl. congruence.
  - split; [simpl; exact Ha|]. intros p q Hp Hq.
    assert (Hin : In [p; q] (indices [P; Q])) by (apply in_indices_2; split; assumption).
    rewrite get_zip_at by (rewrite Ha; exact Hin).
    simpl shape. rewrite Hd, expand_index_same by exact Hin.
    rewrite get_tmap; [reflexivity|exact Hl|rewrite Hd; exact Hin].
Qed.

Lemma fired_before (x : Tensor R) (n k : nat) :
  vector_of n x -> k < n -> get (tmap (Rleb 0) x) [k] = Rleb 0 (get x [k]).
Proof.
  intros [Hs Hl] Hk. apply get_tmap.
  - rewrite Hs, Hl. simpl. lia.
  - rewrite Hs. apply in_indices_1. assumption.
Qed.

Ltac use H := rewrite H; simpl.

(** What lines 93 to 105 compute. *)
Lemma pre_spike_pairs_spec :
  vector_of P (Layer.firing_mask (pre_layer w)) ->
  tau_m (self w) = Some tau ->
  exists active dt last_pre,
    ExponentialSTDPSynapse.pre_spike_pairs w
    = (inr (active, dt), on_self (set_last_pre_spike_time last_pre) w) /\
    (forall p, get last_pre [p]
               = if get (Layer.firing_mask (pre_layer w)) [p]
                 then Network.time (network w)
                 else get (_last_pre_spike_time (self w)) [p]) /\
    shape active = [P; Q] /\ shape dt = [P; Q] /\
    forall p q, p < P -> q < Q ->
      get dt [p; q]
      = (get last_pre [p] - get (_last_post_spike_time (self w)) [q])%R /\
      get active [p; q]
      = (get (Layer.firing_mask (pre_layer w)) [p]
         && Rleb 0 (get (_last_post_spike_time (self w)) [q]))
        && Rleb (get dt [p; q]) (2 * tau).
Proof.
  intros firing_P tau_m_set.
  destruct (setitem_mask_scalar_vector _ _ (Network.time (network w)) P
              last_pre_P firing_P) as (lp & Hset & Hlp & Hget).
  destruct (ger_vectors (Layer.firing_mask (pre_layer w))
              (tmap (Rleb 0) (_last_post_spike_time (self w))) P Q
              (proj1 firing_P) (proj1 last_post_Q)) as (a0 & Hger & Ha0 & Hga0).
  destruct (rows_and_columns lp (_last_post_spike_time (self w))
              (proj1 Hlp) (proj1 last_post_Q))
    as (ra & rat & rb & Hra & Hrat & Hrb & Hsrat & Hsrb & Hrc).
  destruct (sub rat rb) as [e|dt] eqn:Hsub.
  { unfold sub, broadcast2 in Hsub.
    rewrite Hsrat, Hsrb, broadcast_shapes_same in Hsub. discriminate. }
  assert (Hs : shape rb = shape rat) by congruence.
  destruct (get_broadcast2_same Rminus rat rb dt [] Hs Hsub) as (Hsd & Hld & _).
  assert (Hwf : length (data dt) = numel (shape dt)) by (rewrite Hsd; exact Hld).
  rewrite Hsrat in Hsd.
  destruct (windowed a0 dt Ha0 Hsd Hwf) as (active & Hand & Hsa & Hga).
  exists active, dt, lp. split.
  { unfold ExponentialSTDPSynapse.pre_spike_pairs. run.
    use Hset. use Hger. rewrite post_size_Q. use Hra. use Hrat.
    rewrite pre_size_P. use Hrb. use Hsub. use tau_m_set. use Hand.
    reflexivity. }
  split; [exact Hget|]. split; [exact Hsa|]. split; [exact Hsd|].
  intros p q Hp Hq.
  assert (Hin : In [p; q] (indices (shape rat)))
    by (rewrite Hsrat; apply in_indices_2; split; assumption).
  destruct (get_broadcast2_same Rminus rat rb dt [p; q] Hs Hsub) as (_ & _ & Hg).
  destruct (Hrc p q Hp Hq) as [Hr1 Hr2].
  rewrite (Hga p q Hp Hq), (Hga0 p q Hp Hq), (Hg Hin), Hr1, Hr2.
  rewrite (fired_before _ Q q last_post_Q Hq). split; reflexivity.
Qed.

(** What lines 116 to 128 compute. *)
Lemma post_spike_pairs_spec :
  vector_of Q (Layer.firing_mask (post_layer w)) ->
  tau_p (self w) = Some tau ->
  exists active dt last_post,
    ExponentialSTDPSynapse.post_spike_pairs w
    = (inr (active, dt), on_self (set_last_post_spike_time last_post) w) /\
    (forall q, get last_post [q]
               = if get (Layer.firing_mask (post_layer w)) [q]
                 then Network.time (network w)
                 else get (_last_post_spike_time (self w)) [q]) /\
    shape active = [P; Q] /\ shape dt = [P; Q] /\
    forall p q, p < P -> q < Q ->
      get dt [p; q]
      = (get last_post [q] - get (_last_pre_spike_time (self w)) [p])%R /\
      get active [p; q]
      = (Rleb 0 (get (_last_pre_spike_time (self w)) [p])
         && get (Layer.firing_mask (post_layer w)) [q])
        && Rleb (get dt [p; q]) (2 * tau).
Proof.
  intros firing_Q tau_p_set.
  destruct (setitem_mask_scalar_vector _ _ (Network.time (network w)) Q
              last_post_Q firing_Q) as (lq & Hset & Hlq & Hget).
  destruct (ger_vectors (tmap (Rleb 0) (_last_pre_spike_time (self w)))
              (Layer.firing_mask (post_layer w)) P Q
              (proj1 last_pre_P) (proj1 firing_Q)) as (a0 & Hger & Ha0 & Hga0).
  destruct (rows_and_columns (_last_pre_spike_time (self w)) lq
              (proj1 last_pre_P) (proj1 Hlq))
    as (ra & rat & rb & Hra & Hrat & Hrb & Hsrat & Hsrb & Hrc).
  destruct (sub rb rat) as [e|dt] eqn:Hsub.
  { unfold sub, broadcast2 in Hsub.
    rewrite Hsrat, Hsrb, broadcast_shapes_same in Hsub. discriminate. }
  assert (Hs : shape rat = shape rb) by congruence.
  destruct (get_broadcast2_same Rminus rb rat dt [] Hs Hsub) as (Hsd & Hld & _).
  assert (Hwf : length (data dt) = numel (shape dt)) by (rewrite Hsd; exact Hld).
  rewrite Hsrb in Hsd.
  destruct (windowed a0 dt Ha0 Hsd Hwf) as (active & Hand & Hsa & Hga).
  exists active, dt, lq. split.
  { unfold ExponentialSTDPSynapse.post_spike_pairs. run.
    use Hset. use Hger. rewrite pre_size_P. use Hrb.
    rewrite post_size_Q. use Hra. use Hrat. use Hsub. use tau_p_set. use Hand.
    reflexivity. }
  split; [exact Hget|]. split; [exact Hsa|]. split; [exact Hsd|].
  intros p q Hp Hq.
  assert (Hin : In [p; q] (indices (shape rb)))
    by (rewrite Hsrb; apply in_indices_2; split; assumption).
  destruct (get_broadcast2_same Rminus rb rat dt [p; q] Hs Hsub) as (_ & _ & Hg).
  destruct (Hrc p q Hp Hq) as [Hr1 Hr2].
  rewrite (Hga p q Hp Hq), (Hga0 p q Hp Hq), (Hg Hin), Hr1, Hr2.
  rewrite (fired_before _ P p last_pre_P Hp). split; reflexivity.
Qed.

End Pairs.



Lemma static_call (c : Call) (w : World) :
  static (self w) = true -> call c w = (inr tt, arrange c w).
Proof.
  intros Hs. unfold call.
  destruct (hook c); simpl;
    unfold ExponentialSTDPSynapse.update_on_pre_spikes,
      ExponentialSTDPSynapse.update_on_post_spikes; run; rewrite Hs; reflexivity.
Qed.

(** ** What [forward] stores, and float32 numbers *)

Lemma vec_mat_entry (P Q : nat) (x m : Tensor R) (q : nat) :
  shape x = [P] -> shape m = [P; Q] -> q < Q ->
  nth q (data (vec_mat P Q x m)) 0%R
  = fold_right Rplus 0%R
      (map (fun p => (nth p (data x) 0 * nth (p * Q + q) (data m) 0)%R) (seq 0 P)).
Proof.
  intros Hx Hm Hq.
  transitivity (get (vec_mat P Q x m) [q]).
  { unfold get. replace (ravel (shape (vec_mat P Q x m)) [q]) with q
      by (simpl; lia). reflexivity. }
  unfold vec_mat. rewrite get_tabulate by (apply in_indices_1; exact Hq).
  unfold Rsum. f_equal.
  apply map_ext. intros p. unfold get. rewrite Hx, Hm. simpl.
  replace (p * 1 + 0) with p by lia.
  replace (p * (Q * 1) + (q * 1 + 0)) with (p * Q + q) by lia.
  reflexivity.
Qed.


(** The state [forward] leaves and the entries of [post_layer.i] in it. *)
Lemma forward_run (w : World) (P Q : nat) :
  shape (Layer.o (pre_layer w)) = [P] -> shape (weights (self w)) = [P; Q] ->
  AbstractSynapse.forward w =
  (inr tt,
   on_post_layer
     (Layer.set_i (vec_mat P Q (Layer.o (pre_layer w)) (weights (self w)))) w).
Proof.
  intros Ho Hw. unfold AbstractSynapse.forward. run.
  rewrite (matmul_vec_mat _ _ P Q Ho Hw). reflexivity.
Qed.

Lemma forward_entry (w : World) (P Q q : nat) :
  shape (Layer.o (pre_layer w)) = [P] -> shape (weights (self w)) = [P; Q] ->
  q < Q ->
  nth q (data (Layer.i (post_layer (snd (AbstractSynapse.forward w))))) 0%R
  = fold_right Rplus 0%R
      (map (fun p => (nth p (data (Layer.o (pre_layer w))) 0
                      * nth (p * Q + q) (data (weights (self w))) 0)%R)
           (seq 0 P)).
Proof.
  intros Ho Hw Hq.
  pose proof (vec_mat_entry P Q (Layer.o (pre_layer w)) (weights (self w)) q
                Ho Hw Hq) as Hv.
  rewrite (forward_run w P Q Ho Hw).
  remember (vec_mat P Q (Layer.o (pre_layer w)) (weights (self w))) as v.
  simpl. exact Hv.
Qed.

(** Whole numbers below 2^24 in magnitude are float32 numbers. *)
Lemma float32_IZR (n : Z) : (Z.abs n < 16777216)%Z -> float32 (IZR n).
Proof.
  intros Hn. exists n, 0%Z. split; [exact Hn|]. split; [lia|]. simpl. lra.
Qed.

Lemma float32_whole (x : R) (n : Z) :
  x = IZR n -> (Z.abs n < 16777216)%Z -> float32 x.
Proof. intros ->. apply float32_IZR. Qed.

(** Column sums of a concrete 2 by 2 product. *)
Ltac small_sums :=
  let q := fresh "q" in
  let Hq := fresh "Hq" in
  intros q Hq;
  do 2 (destruct q as [|q];
        [simpl; unfold Rabs;
         repeat match goal with
                | |- context [Rcase_abs ?x] => destruct (Rcase_abs x)
                end; lra|]);
  lia.

Ltac whole_entries := repeat constructor; eexists; reflexivity.

(** Concrete spike times: whole numbers whose differences are small. *)
Ltac whole_times now :=
  split; [apply (float32_IZR now); reflexivity|];
  let x := fresh "x" in
  let y := fresh "y" in
  let Hx := fresh "Hx" in
  let Hy := fresh "Hy" in
  intros x y Hx Hy; simpl in Hx, Hy;
  repeat match goal with
         | H : _ \/ _ |- _ => destruct H as [H|H]
         | H : False |- _ => destruct H
         end;
  subst x y;
  match goal with
  | |- float32 (IZR ?a - IZR ?b) =>
      rewrite <- (minus_IZR a b); apply float32_IZR; reflexivity
  end.

Lemma forward_2x2_exact :
  exact_products 2 2 (data (Layer.o (pre_layer forward_2x2)))
    (data (weights (self forward_2x2))).
Proof. split; [whole_entries|]. split; [whole_entries|]. small_sums. Qed.

Lemma forward_2x2_b_exact :
  exact_products 2 2 (data (Layer.o (pre_layer forward_2x2_b)))
    (data (weights (self forward_2x2))).
Proof. split; [whole_entries|]. split; [whole_entries|]. small_sums. Qed.

Lemma forward_2x2_sum_exact :
  exact_products 2 2 (data (Layer.o (pre_layer forward_2x2_sum)))
    (data (weights (self forward_2x2))).
Proof. split; [whole_entries|]. split; [whole_entries|]. small_sums. Qed.

Lemma pre_2x2_exact :
  exact_timing (Network.time (network pre_2x2))
    (data (_last_pre_spike_time (self pre_2x2)))
    (data (_last_post_spike_time (self pre_2x2))).
Proof. whole_times 2%Z. Qed.

Lemma post_2x2_exact :
  exact_timing (Network.time (network post_2x2))
    (data (_last_post_spike_time (self post_2x2)))
    (data (_last_pre_spike_time (self post_2x2))).
Proof. whole_times 2%Z. Qed.

(** * The specification's claims *)

(** ** Evaluations used below *)

Lemma scenario_step1 :
  call post_at_5 scenario_start
  = (inl in_place_error, scenario_recorded (-1) 5 5 false true).
Proof. eval_hook. reflexivity. Qed.

Lemma scenario_step2 :
  call pre_at_10 (scenario_recorded (-1) 5 5 false true)
  = (inl in_place_error, scenario_recorded 10 5 10 true false).
Proof. eval_hook. reflexivity. Qed.

Lemma scenario_step3 :
  call post_at_12 (scenario_recorded 10 5 10 true false)
  = (inl in_place_error, scenario_recorded 10 12 12 false true).
Proof. eval_hook. reflexivity. Qed.

Lemma fresh_1x2_constructed :
  ExponentialSTDPSynapse.__init__ (layer [true]) (layer [false; false])
    (matrix 1 2 [1 / 2; 1 / 2]%R) (Network.mk 1) = inr fresh_1x2.
Proof.
  unfold fresh_1x2, ExponentialSTDPSynapse.__init__, AbstractSynapse.__init__.
  unfold neg, ones, tmap, vector, layer. simpl.
  replace (- (1))%R with (-1)%R by lra. reflexivity.
Qed.

(** A synapse as constructed has no [tau_m]: its first pre-spike update
    stops at line 104. *)
Lemma fresh_1x2_raises :
  ExponentialSTDPSynapse.update_on_pre_spikes fresh_1x2 =
  (inl (AttributeError "tau_m"),
   on_self (set_last_pre_spike_time (vector [1]%R)) fresh_1x2).
Proof. eval_hook. reflexivity. Qed.

Lemma half_silent_pre_pairs :
  ExponentialSTDPSynapse.pre_spike_pairs half_silent =
  (inr (matrix 1 2 [true; false], matrix 1 2 [3 - 1; 3 - -1]%R),
   on_self (set_last_pre_spike_time (vector [3]%R)) half_silent).
Proof. eval_hook. reflexivity. Qed.

Lemma half_silent_post_pairs :
  ExponentialSTDPSynapse.post_spike_pairs half_silent =
  (inr (matrix 1 2 [false; false], matrix 1 2 [3 - -1; -1 - -1]%R),
   on_self (set_last_post_spike_time (vector [3; -1]%R)) half_silent).
Proof. eval_hook. reflexivity. Qed.

(** The forward pass on outputs [1, 2] and weights [[1, 2], [3, 4]]
    writes the inputs [7, 10]. *)
Lemma forward_2x2_values :
  Forall2 (fun x y : R => x = y)
    (data (Layer.i (post_layer (snd (AbstractSynapse.forward forward_2x2)))))
    [7; 10]%R.
Proof. eval_model. repeat constructor; lra. Qed.

(** The expected weights of the numeric scenario are about 0.461 and
    0.510, both away from 0.5. *)
Lemma expected_values_off :
  (1 / 2 - expected_second > 1 / 100000)%R /\
  (expected_third - 1 / 2 > 1 / 100000)%R.
Proof.
  unfold expected_third, expected_second.
  pose proof (exp_ineq1_le (- (10 - 5) / 20)) as H1.
  pose proof (exp_ineq1_le (- (12 - 10) / 20)) as H2.
  pose proof (exp_ineq1_le ((10 - 5) / 20)) as H3.
  assert (H4 : (exp (- (10 - 5) / 20) * exp ((10 - 5) / 20) = 1)%R).
  { rewrite <- exp_plus.
    replace (- (10 - 5) / 20 + (10 - 5) / 20)%R with 0%R by lra.
    apply exp_0. }
  set (e1 := exp (- (10 - 5) / 20)) in *.
  set (e2 := exp (- (12 - 10) / 20)) in *.
  set (E := exp ((10 - 5) / 20)) in *.
  assert (He1 : (e1 <= 4 / 5)%R) by nra.
  split; nra.
Qed.

(** ** C1: the pre-spike update *)

(** C1.  The specification asks that, on a non-static synapse, the weight
    of every eligible pair decreases by
    [learn_rate_m * (w - w_min) * exp(-dt/tau_m)].  On two pre and two
    post neurons with all four pairs eligible the code records the
    pre-spikes, finds the four pairs and their time differences (all 1),
    and then raises at line 108: the four picked weights (1-D) do not
    broadcast against the 2 by 2 matrix [exp(-dt/tau_m)].  No weight is
    changed. *)
Theorem pre_update_raises_on_eligible_pairs :
  ExponentialSTDPSynapse.pre_spike_pairs pre_2x2 =
    (inr (matrix 2 2 [true; true; true; true],
          matrix 2 2 [2 - 1; 2 - 1; 2 - 1; 2 - 1]%R),
     on_self (set_last_pre_spike_time (vector [2; 2]%R)) pre_2x2) /\
  ExponentialSTDPSynapse.update_on_pre_spikes pre_2x2 =
    (inl broadcast_error,
     on_self (set_last_pre_spike_time (vector [2; 2]%R)) pre_2x2) /\
  weights (self (snd (ExponentialSTDPSynapse.update_on_pre_spikes pre_2x2)))
    = matrix 2 2 [1 / 2; 1 / 2; 1 / 2; 1 / 2]%R.
Proof.
  assert (H : ExponentialSTDPSynapse.update_on_pre_spikes pre_2x2 =
    (inl broadcast_error,
     on_self (set_last_pre_spike_time (vector [2; 2]%R)) pre_2x2))
    by (eval_hook; reflexivity).
  split; [eval_hook; reflexivity|]. split; [exact H|]. rewrite H. reflexivity.
Qed.

(** ** C2: the post-spike update *)

(** C2.  The mirror image of C1: with all four pairs eligible for
    potentiation, the post-spike update records the post-spikes and raises
    at line 131 for the same reason; no weight is changed. *)
Theorem post_update_raises_on_eligible_pairs :
  ExponentialSTDPSynapse.post_spike_pairs post_2x2 =
    (inr (matrix 2 2 [true; true; true; true],
          matrix 2 2 [2 - 1; 2 - 1; 2 - 1; 2 - 1]%R),
     on_self (set_last_post_spike_time (vector [2; 2]%R)) post_2x2) /\
  ExponentialSTDPSynapse.update_on_post_spikes post_2x2 =
    (inl broadcast_error,
     on_self (set_last_post_spike_time (vector [2; 2]%R)) post_2x2) /\
  weights (self (snd (ExponentialSTDPSynapse.update_on_post_spikes post_2x2)))
    = matrix 2 2 [1 / 2; 1 / 2; 1 / 2; 1 / 2]%R.
Proof.
  assert (H : ExponentialSTDPSynapse.update_on_post_spikes post_2x2 =
    (inl broadcast_error,
     on_self (set_last_post_spike_time (vector [2; 2]%R)) post_2x2))
    by (eval_hook; reflexivity).
  split; [eval_hook; reflexivity|]. split; [exact H|]. rewrite H. reflexivity.
Qed.

(** ** C3: the bound invariant *)




(** ** C4: the numeric scenario *)

(** C4.  The specification asks for the weights 0.5, then about 0.46106,
    then about 0.50983.  On the 1 by 1 synapse of the scenario each of the
    three calls records its spike and then raises at the in-place update
    (lines 132, 109, 132): the picked entries are 1-D, the change is
    2-D.  The weight is 0.5 after every call, which is further than
    1e-5 from the values asked for after the second and the third. *)
Theorem numeric_scenario_raises :
  observe [post_at_5; pre_at_10; post_at_12] scenario_start
    = [scenario_recorded (-1) 5 5 false true;
       scenario_recorded 10 5 10 true false;
       scenario_recorded 10 12 12 false true] /\
  fst (call post_at_5 scenario_start) = inl in_place_error /\
  fst (call pre_at_10 (scenario_recorded (-1) 5 5 false true))
    = inl in_place_error /\
  fst (call post_at_12 (scenario_recorded 10 5 10 true false))
    = inl in_place_error /\
  weights (self (scenario_recorded 10 5 10 true false)) = matrix 1 1 [1 / 2]%R /\
  weights (self (scenario_recorded 10 12 12 false true)) = matrix 1 1 [1 / 2]%R /\
  (1 / 2 - expected_second > 1 / 100000)%R /\
  (expected_third - 1 / 2 > 1 / 100000)%R.
Proof.
  unfold observe.
  rewrite scenario_step1. simpl snd. rewrite scenario_step2. simpl snd.
  rewrite scenario_step3. simpl snd.
  repeat split.
  - apply expected_values_off.
  - apply expected_values_off.
Qed.

(** ** C5: completion *)

(** C5.  The specification asks that every update call on a constructed
    synapse runs to completion.  On every non-static synapse whose weights
    are a matrix, whatever the layers, masks, clock and rule parameters,
    both hooks are left by an exception (for a synapse as constructed it
    is the missing attribute [tau_m] or [tau_p], see [fresh_1x2_raises]). *)
Theorem update_hooks_never_complete (w : World) :
  static (self w) = false -> ndim (weights (self w)) = 2 ->
  is_error (fst (ExponentialSTDPSynapse.update_on_pre_spikes w)) = true /\
  is_error (fst (ExponentialSTDPSynapse.update_on_post_spikes w)) = true.
Proof.
  intros Hs Hw. split.
  - apply (update_on_pre_spikes_stops w Hs Hw).
  - apply (update_on_post_spikes_stops w Hs Hw).
Qed.

Lemma update_hooks_never_complete_witness :
  static (self fresh_1x2) = false /\ ndim (weights (self fresh_1x2)) = 2 /\
  is_error (fst (ExponentialSTDPSynapse.update_on_pre_spikes fresh_1x2)) = true /\
  is_error (fst (ExponentialSTDPSynapse.update_on_post_spikes fresh_1x2)) = true.
Proof.
  split; [reflexivity|]. split; [reflexivity|].
  exact (update_hooks_never_complete fresh_1x2 eq_refl eq_refl).
Defined.

(** ** C6: sentinel exclusion *)

(** C6.  On a synapse whose weights are a matrix: if post neuron [q] has
    never fired (its recorded time is negative), a pre-spike update has no
    eligible pair [(p, q)] and leaves [weights[p][q]] as it was; if pre
    neuron [p] has never fired, a post-spike update has no eligible pair
    [(p, q)] and leaves [weights[p][q]] as it was. *)
Theorem sentinel_exclusion (w : World) (p q : nat) :
  ndim (weights (self w)) = 2 ->
  ((get (_last_post_spike_time (self w)) [q] < 0)%R ->
   (forall active dt w1,
      ExponentialSTDPSynapse.pre_spike_pairs w = (inr (active, dt), w1) ->
      In [p; q] (indices (shape active)) -> get active [p; q] = false) /\
   get (weights (self (snd (ExponentialSTDPSynapse.update_on_pre_spikes w)))) [p; q]
   = get (weights (self w)) [p; q]) /\
  ((get (_last_pre_spike_time (self w)) [p] < 0)%R ->
   (forall active dt w1,
      ExponentialSTDPSynapse.post_spike_pairs w = (inr (active, dt), w1) ->
      In [p; q] (indices (shape active)) -> get active [p; q] = false) /\
   get (weights (self (snd (ExponentialSTDPSynapse.update_on_post_spikes w)))) [p; q]
   = get (weights (self w)) [p; q]).
Proof.
  intros Hw. split; intros Hneg; split.
  - intros active dt w1 Hrun Hin.
    exact (pre_spike_pairs_sentinel w active dt w1 p q Hrun Hneg Hin).
  - rewrite (update_on_pre_spikes_matrix w Hw). reflexivity.
  - intros active dt w1 Hrun Hin.
    exact (post_spike_pairs_sentinel w active dt w1 p q Hrun Hneg Hin).
  - rewrite (update_on_post_spikes_matrix w Hw). reflexivity.
Qed.

Lemma sentinel_exclusion_witness :
  ndim (weights (self half_silent)) = 2 /\
  (get (_last_post_spike_time (self half_silent)) [1%nat] < 0)%R /\
  (get (_last_pre_spike_time (self half_silent)) [0%nat] < 0)%R /\
  ExponentialSTDPSynapse.pre_spike_pairs half_silent =
    (inr (matrix 1 2 [true; false], matrix 1 2 [3 - 1; 3 - -1]%R),
     on_self (set_last_pre_spike_time (vector [3]%R)) half_silent) /\
  ExponentialSTDPSynapse.post_spike_pairs half_silent =
    (inr (matrix 1 2 [false; false], matrix 1 2 [3 - -1; -1 - -1]%R),
     on_self (set_last_post_spike_time (vector [3; -1]%R)) half_silent) /\
  In [0; 1] (indices [1; 2]) /\
  get (matrix 1 2 [true; false]) [0; 1] = false /\
  get (weights (self (snd (ExponentialSTDPSynapse.update_on_pre_spikes half_silent)))) [0; 1]
  = get (weights (self half_silent)) [0; 1] /\
  get (matrix 1 2 [false; false]) [0; 1] = false /\
  get (weights (self (snd (ExponentialSTDPSynapse.update_on_post_spikes half_silent)))) [0; 1]
  = get (weights (self half_silent)) [0; 1].
Proof.
  assert (Hq : (get (_last_post_spike_time (self half_silent)) [1%nat] < 0)%R)
    by (cbv -[Rlt IZR]; lra).
  assert (Hp : (get (_last_pre_spike_time (self half_silent)) [0%nat] < 0)%R)
    by (cbv -[Rlt IZR]; lra).
  destruct (sentinel_exclusion half_silent 0 1 eq_refl) as [Hpre Hpost].
  destruct (Hpre Hq) as [Hmask Hcol]. destruct (Hpost Hp) as [Hmask' Hrow].
  assert (Hin : In [0; 1] (indices [1; 2])) by (simpl; auto).
  split; [reflexivity|]. split; [exact Hq|]. split; [exact Hp|].
  split; [exact half_silent_pre_pairs|].
  split; [exact half_silent_post_pairs|]. split; [exact Hin|].
  split; [|split; [exact Hcol|split; [|exact Hrow]]].
  - exact (Hmask _ _ _ half_silent_pre_pairs Hin).
  - exact (Hmask' _ _ _ half_silent_post_pairs Hin).
Defined.

(** ** C7: static freeze *)

(** C7.  With [static = true], after each call of any sequence of hook
    calls, whatever the layers, masks and clock at each call, the weights
    are the weights the sequence started from. *)
Theorem static_freeze (cs : list Call) : forall w : World,
  static (self w) = true ->
  Forall (fun w' => weights (self w') = weights (self w)) (observe cs w).
Proof.
  induction cs as [|c cs IH]; intros w Hs; simpl.
  - constructor.
  - rewrite (static_call c w Hs). simpl. constructor; [reflexivity|].
    apply (IH (arrange c w)). exact Hs.
Qed.

Lemma static_freeze_witness :
  static (self frozen_high) = true /\
  Forall (fun w' => weights (self w') = weights (self frozen_high))
    (observe [post_at_5; pre_at_10; post_at_12] frozen_high).
Proof.
  split; [reflexivity|].
  exact (static_freeze [post_at_5; pre_at_10; post_at_12] frozen_high eq_refl).
Defined.

(** ** C8: forward *)




(** ** C9: construction *)

(** C9, as stated, fails: a 3 by 2 weight matrix between two layers of
    one neuron each is accepted. *)
Lemma construction_accepts_mismatch :
  shape (matrix 3 2 [0; 0; 0; 0; 0; 0]%R)
    <> [Layer.size (layer [true]); Layer.size (layer [true])] /\
  is_error (ExponentialSTDPSynapse.__init__ (layer [true]) (layer [true])
              (matrix 3 2 [0; 0; 0; 0; 0; 0]%R) (Network.mk 0)) = false.
Proof. split; [discriminate|reflexivity]. Qed.

(** C9, amended.  Construction compares no shapes and never fails: for
    any layers, any weights (of the layers' sizes or not) and any network
    it succeeds and stores the weights, the layers and the network as
    given. *)
Theorem construction_always_succeeds (pre post : Layer.t) (ws : Tensor R)
    (net : Network.t) :
  exists w : World,
    ExponentialSTDPSynapse.__init__ pre post ws net = inr w /\
    weights (self w) = ws /\
    pre_layer w = pre /\ post_layer w = post /\ network w = net.
Proof.
  eexists. split; [reflexivity|]. repeat split.
Qed.

(** ** C10: unclamped initial weights *)

(** C10.  The constructor sets [w_min = 0], [w_max = 1] and stores the
    weights unchanged, so an entry outside [[0, 1]] is in [weights] after
    construction.  The specification adds that the first non-static hook
    call clamps it; on a 1 by 2 matrix holding the entry 2, with the rule
    parameters assigned, the first pre-spike update raises at line 108,
    before the clamp, and the entry 2 is still there. *)
Theorem unclamped_weight_survives_update :
  (forall pre post ws net, exists w : World,
      ExponentialSTDPSynapse.__init__ pre post ws net = inr w /\
      w_min (self w) = 0%R /\ w_max (self w) = 1%R /\
      static (self w) = false /\ weights (self w) = ws) /\
  ExponentialSTDPSynapse.__init__ (layer [true]) (layer [false; false])
    (matrix 1 2 [2; 1 / 2]%R) (Network.mk 1) = inr high_1x2 /\
  ExponentialSTDPSynapse.update_on_pre_spikes high_1x2_ready =
    (inl broadcast_error,
     on_self (set_last_pre_spike_time (vector [1]%R)) high_1x2_ready) /\
  weights (self (snd (ExponentialSTDPSynapse.update_on_pre_spikes high_1x2_ready)))
    = matrix 1 2 [2; 1 / 2]%R /\
  ~ within_bounds
      (self (snd (ExponentialSTDPSynapse.update_on_pre_spikes high_1x2_ready))).
Proof.
  assert (H : ExponentialSTDPSynapse.update_on_pre_spikes high_1x2_ready =
    (inl broadcast_error,
     on_self (set_last_pre_spike_time (vector [1]%R)) high_1x2_ready))
    by (eval_hook; reflexivity).
  split.
  { intros pre post ws net. eexists. split; [reflexivity|]. repeat split. }
  split.
  { unfold high_1x2, ExponentialSTDPSynapse.__init__, AbstractSynapse.__init__.
    unfold neg, ones, tmap, vector, layer. simpl.
    replace (- (1))%R with (-1)%R by lra. reflexivity. }
  split; [exact H|]. rewrite H. split; [reflexivity|].
  unfold within_bounds. simpl. intros Hb. apply Forall_inv in Hb. lra.
Qed.

(** * Further properties of the code *)

(** ** [_clamp] *)

Ltac split_minmax :=
  unfold Rmin, Rmax;
  repeat match goal with
         | |- context [Rle_dec ?a ?b] =>
             lazymatch a with
             | context [Rle_dec _ _] => fail
             | _ =>
                 lazymatch b with
                 | context [Rle_dec _ _] => fail
                 | _ => destruct (Rle_dec a b)
                 end
             end
         end; try lra.

Lemma clamp_value_twice (lo hi v : R) :
  Rmin (Rmax (Rmin (Rmax v lo) hi) lo) hi = Rmin (Rmax v lo) hi.
Proof. split_minmax. Qed.

Lemma clamp_value_inside (lo hi v : R) :
  (lo <= v <= hi)%R -> Rmin (Rmax v lo) hi = v.
Proof. intros [H1 H2]. split_minmax. Qed.

Lemma _clamp_run (w : World) :
  ExponentialSTDPSynapse._clamp w =
  (inr tt,
   on_self (set_weights
              (clamp_ (w_min (self w)) (w_max (self w)) (weights (self w)))) w).
Proof. reflexivity. Qed.

Lemma world_eta (w : World) (v : Tensor R) :
  v = weights (self w) -> on_self (set_weights v) w = w.
Proof. intros ->. destruct w as [a b c s]. destruct s. reflexivity. Qed.

Lemma tensor_eta {A} (x : Tensor A) (l : list A) :
  l = data x -> mkTensor (shape x) l = x.
Proof. intros ->. destruct x. reflexivity. Qed.

(** X1.  [_clamp] returns normally and changes only the weights; when
    [w_min <= w_max] and both bounds are float32 numbers (as the 0 and 1
    the constructor sets), every weight lies in [[w_min, w_max]]
    afterwards and the shape of the weights is as before. *)
Theorem clamp_enforces_bounds (w : World) :
  (w_min (self w) <= w_max (self w))%R ->
  float32 (w_min (self w)) -> float32 (w_max (self w)) ->
  fst (ExponentialSTDPSynapse._clamp w) = inr tt /\
  within_bounds (self (snd (ExponentialSTDPSynapse._clamp w))) /\
  shape (weights (self (snd (ExponentialSTDPSynapse._clamp w))))
    = shape (weights (self w)) /\
  same_surroundings w (snd (ExponentialSTDPSynapse._clamp w)) /\
  _last_pre_spike_time (self (snd (ExponentialSTDPSynapse._clamp w)))
    = _last_pre_spike_time (self w) /\
  _last_post_spike_time (self (snd (ExponentialSTDPSynapse._clamp w)))
    = _last_post_spike_time (self w).
Proof.
  intros Hle _ _. rewrite _clamp_run. simpl. split; [reflexivity|].
  split; [|split; [reflexivity|split; [|split; reflexivity]]].
  - unfold within_bounds. simpl. apply (clamp_within _ _ _ Hle).
  - unfold same_surroundings. simpl. repeat split; reflexivity.
Qed.

Lemma clamp_enforces_bounds_witness :
  (w_min (self frozen_high) <= w_max (self frozen_high))%R /\
  float32 (w_min (self frozen_high)) /\ float32 (w_max (self frozen_high)) /\
  fst (ExponentialSTDPSynapse._clamp frozen_high) = inr tt /\
  within_bounds (self (snd (ExponentialSTDPSynapse._clamp frozen_high))).
Proof.
  assert (Hle : (w_min (self frozen_high) <= w_max (self frozen_high))%R)
    by (simpl; lra).
  assert (Hlo : float32 (w_min (self frozen_high)))
    by (apply (float32_IZR 0); reflexivity).
  assert (Hhi : float32 (w_max (self frozen_high)))
    by (apply (float32_IZR 1); reflexivity).
  split; [exact Hle|]. split; [exact Hlo|]. split; [exact Hhi|].
  destruct (clamp_enforces_bounds frozen_high Hle Hlo Hhi) as (H1 & H2 & _).
  split; [exact H1|exact H2].
Defined.

(** X2.  [_clamp] is idempotent: a second call right after the first
    returns the same result and leaves the same state, whatever the
    bounds. *)
Theorem clamp_idempotent (w : World) :
  ExponentialSTDPSynapse._clamp (snd (ExponentialSTDPSynapse._clamp w))
  = ExponentialSTDPSynapse._clamp w.
Proof.
  rewrite !_clamp_run. simpl. f_equal. unfold on_self, set_weights. simpl.
  f_equal. f_equal. unfold clamp_, tmap. simpl. f_equal.
  rewrite map_map. apply map_ext. intros v. apply clamp_value_twice.
Qed.

(** X3.  When every weight already lies in [[w_min, w_max]], [_clamp]
    changes nothing at all. *)
Theorem clamp_keeps_inside (w : World) :
  within_bounds (self w) ->
  ExponentialSTDPSynapse._clamp w = (inr tt, w).
Proof.
  intros Hb. rewrite _clamp_run. f_equal. apply world_eta.
  unfold clamp_, tmap. apply tensor_eta.
  unfold within_bounds in Hb. induction (data (weights (self w))) as [|x l IH].
  - reflexivity.
  - simpl. rewrite (clamp_value_inside _ _ _ (Forall_inv Hb)).
    rewrite IH by exact (Forall_inv_tail Hb). reflexivity.
Qed.

Lemma clamp_keeps_inside_witness :
  within_bounds (self scenario_start) /\
  ExponentialSTDPSynapse._clamp scenario_start = (inr tt, scenario_start).
Proof.
  assert (Hb : within_bounds (self scenario_start))
    by (unfold within_bounds; simpl; repeat constructor; lra).
  split; [exact Hb|exact (clamp_keeps_inside scenario_start Hb)].
Defined.

(** ** [forward] *)

Lemma matmul_length_mismatch (x m : Tensor R) (P' P Q : nat) :
  shape x = [P'] -> shape m = [P; Q] -> P' <> P ->
  matmul x m = inl (RuntimeError "size mismatch in matmul").
Proof.
  intros Hx Hm Hne. unfold matmul, ndim. rewrite Hx, Hm. simpl.
  destruct (P' =? P) eqn:E; [apply Nat.eqb_eq in E; contradiction|reflexivity].
Qed.

(** X4.  When [pre_layer.o] is a vector whose length differs from the
    number of rows of the weight matrix, [forward()] raises and changes
    nothing: [post_layer.i] keeps its old value. *)
Theorem forward_size_mismatch (w : World) (P' P Q : nat) :
  shape (Layer.o (pre_layer w)) = [P'] ->
  shape (weights (self w)) = [P; Q] -> P' <> P ->
  AbstractSynapse.forward w = (inl (RuntimeError "size mismatch in matmul"), w).
Proof.
  intros Ho Hw Hne. unfold AbstractSynapse.forward. run.
  rewrite (matmul_length_mismatch _ _ P' P Q Ho Hw Hne). reflexivity.
Qed.

Lemma forward_size_mismatch_witness :
  shape (Layer.o (pre_layer (arrange post_at_5 forward_2x2))) = [1] /\
  shape (weights (self (arrange post_at_5 forward_2x2))) = [2; 2] /\
  1 <> 2 /\
  AbstractSynapse.forward (arrange post_at_5 forward_2x2)
  = (inl (RuntimeError "size mismatch in matmul"), arrange post_at_5 forward_2x2).
Proof.
  assert (Hne : 1 <> 2) by discriminate.
  split; [reflexivity|]. split; [reflexivity|]. split; [exact Hne|].
  exact (forward_size_mismatch (arrange post_at_5 forward_2x2) 1 2 2
           eq_refl eq_refl Hne).
Defined.

(** X5.  [forward()] reads nothing it writes: calling it a second time
    gives the same result and the same state as calling it once. *)
Theorem forward_twice (w : World) :
  AbstractSynapse.forward (snd (AbstractSynapse.forward w))
  = AbstractSynapse.forward w.
Proof.
  unfold AbstractSynapse.forward. run.
  destruct (matmul (Layer.o (pre_layer w)) (weights (self w))) as [e|v] eqn:E;
    simpl; rewrite E; reflexivity.
Qed.

(** ** The states an update hook can end in *)

Lemma pre_spike_pairs_world (w : World) :
  match setitem_mask_scalar (_last_pre_spike_time (self w))
          (Layer.firing_mask (pre_layer w)) (Network.time (network w)) with
  | inl e => ExponentialSTDPSynapse.pre_spike_pairs w = (inl e, w)
  | inr lp => snd (ExponentialSTDPSynapse.pre_spike_pairs w) = pre_recorded lp w
  end.
Proof.
  unfold ExponentialSTDPSynapse.pre_spike_pairs. run.
  destruct (setitem_mask_scalar _ _ _) as [e|lp]; simpl; [reflexivity|].
  repeat (next; try reflexivity).
Qed.

Lemma post_spike_pairs_world (w : World) :
  match setitem_mask_scalar (_last_post_spike_time (self w))
          (Layer.firing_mask (post_layer w)) (Network.time (network w)) with
  | inl e => ExponentialSTDPSynapse.post_spike_pairs w = (inl e, w)
  | inr lq => snd (ExponentialSTDPSynapse.post_spike_pairs w) = post_recorded lq w
  end.
Proof.
  unfold ExponentialSTDPSynapse.post_spike_pairs. run.
  destruct (setitem_mask_scalar _ _ _) as [e|lp]; simpl; [reflexivity|].
  repeat (next; try reflexivity).
Qed.

Lemma update_on_pre_spikes_cases (w : World) :
  static (self w) = false ->
  match setitem_mask_scalar (_last_pre_spike_time (self w))
          (Layer.firing_mask (pre_layer w)) (Network.time (network w)) with
  | inl e => ExponentialSTDPSynapse.update_on_pre_spikes w = (inl e, w)
  | inr lp =>
      snd (ExponentialSTDPSynapse.update_on_pre_spikes w) = pre_recorded lp w \/
      exists v,
        snd (ExponentialSTDPSynapse.update_on_pre_spikes w)
        = reweighted v (pre_recorded lp w)
  end.
Proof.
  intros Hs. pose proof (pre_spike_pairs_world w) as Hp.
  unfold ExponentialSTDPSynapse.update_on_pre_spikes. run. rewrite Hs.
  destruct (setitem_mask_scalar _ _ _) as [e|lp].
  - rewrite Hp. reflexivity.
  - destruct (ExponentialSTDPSynapse.pre_spike_pairs w) as [[e|[active dt]] w1];
      simpl in *; subst w1; [left; reflexivity|].
    repeat (next; try (left; reflexivity)).
    right. eexists. reflexivity.
Qed.

Lemma update_on_post_spikes_cases (w : World) :
  static (self w) = false ->
  match setitem_mask_scalar (_last_post_spike_time (self w))
          (Layer.firing_mask (post_layer w)) (Network.time (network w)) with
  | inl e => ExponentialSTDPSynapse.update_on_post_spikes w = (inl e, w)
  | inr lq =>
      snd (ExponentialSTDPSynapse.update_on_post_spikes w) = post_recorded lq w \/
      exists v,
        snd (ExponentialSTDPSynapse.update_on_post_spikes w)
        = reweighted v (post_recorded lq w)
  end.
Proof.
  intros Hs. pose proof (post_spike_pairs_world w) as Hp.
  unfold ExponentialSTDPSynapse.update_on_post_spikes. run. rewrite Hs.
  destruct (setitem_mask_scalar _ _ _) as [e|lp].
  - rewrite Hp. reflexivity.
  - destruct (ExponentialSTDPSynapse.post_spike_pairs w) as [[e|[active dt]] w1];
      simpl in *; subst w1; [left; reflexivity|].
    repeat (next; try (left; reflexivity)).
    right. eexists. reflexivity.
Qed.

Lemma static_pre (w : World) :
  static (self w) = true ->
  ExponentialSTDPSynapse.update_on_pre_spikes w = (inr tt, w).
Proof.
  intros Hs. unfold ExponentialSTDPSynapse.update_on_pre_spikes. run.
  rewrite Hs. reflexivity.
Qed.

Lemma static_post (w : World) :
  static (self w) = true ->
  ExponentialSTDPSynapse.update_on_post_spikes w = (inr tt, w).
Proof.
  intros Hs. unfold ExponentialSTDPSynapse.update_on_post_spikes. run.
  rewrite Hs. reflexivity.
Qed.

Ltac frame_done :=
  unfold same_surroundings, pre_recorded, post_recorded, reweighted; simpl;
  repeat split; reflexivity.

(** X7.  Whatever the state and whether it returns or raises, an update
    hook never changes the layers, the network, the bounds, the static
    flag or the rule parameters; a pre-spike update never changes
    [_last_post_spike_time] and a post-spike update never changes
    [_last_pre_spike_time]. *)
Theorem hooks_touch_only_their_own (w : World) :
  (same_surroundings w (snd (ExponentialSTDPSynapse.update_on_pre_spikes w)) /\
   _last_post_spike_time (self (snd (ExponentialSTDPSynapse.update_on_pre_spikes w)))
   = _last_post_spike_time (self w)) /\
  (same_surroundings w (snd (ExponentialSTDPSynapse.update_on_post_spikes w)) /\
   _last_pre_spike_time (self (snd (ExponentialSTDPSynapse.update_on_post_spikes w)))
   = _last_pre_spike_time (self w)).
Proof.
  split.
  - destruct (static (self w)) eqn:Hs.
    + rewrite (static_pre w Hs). frame_done.
    + pose proof (update_on_pre_spikes_cases w Hs) as H.
      destruct (setitem_mask_scalar _ _ _) as [e|lp].
      * rewrite H. frame_done.
      * destruct H as [-> | [v ->]]; frame_done.
  - destruct (static (self w)) eqn:Hs.
    + rewrite (static_post w Hs). frame_done.
    + pose proof (update_on_post_spikes_cases w Hs) as H.
      destruct (setitem_mask_scalar _ _ _) as [e|lp].
      * rewrite H. frame_done.
      * destruct H as [-> | [v ->]]; frame_done.
Qed.

Lemma setitem_mask_scalar_misfit {A} (x : Tensor A) (m : Tensor bool) (v : A)
    (n k : nat) :
  shape x = [n] -> shape m = [k] -> k <> n ->
  setitem_mask_scalar x m v = inl index_error.
Proof.
  intros Hx Hm Hne. unfold setitem_mask_scalar, mask_fits, ndim, same_shape.
  rewrite Hx, Hm. change (firstn (length [k]) [n]) with [n].
  destruct (list_eq_dec Nat.eq_dec [k] [n]) as [E|_]; [|reflexivity].
  injection E as E. contradiction.
Qed.

(** X8.  On a non-static synapse, a firing mask whose length differs
    from the length of the spike-time vector it indexes makes the hook
    raise an IndexError at its first statement, with nothing changed. *)
Theorem wrong_mask_length_raises (w : World) (n k : nat) :
  static (self w) = false ->
  (shape (_last_pre_spike_time (self w)) = [n] ->
   shape (Layer.firing_mask (pre_layer w)) = [k] -> k <> n ->
   ExponentialSTDPSynapse.update_on_pre_spikes w = (inl index_error, w)) /\
  (shape (_last_post_spike_time (self w)) = [n] ->
   shape (Layer.firing_mask (post_layer w)) = [k] -> k <> n ->
   ExponentialSTDPSynapse.update_on_post_spikes w = (inl index_error, w)).
Proof.
  intros Hs. split; intros Hx Hm Hne.
  - pose proof (update_on_pre_spikes_cases w Hs) as H.
    rewrite (setitem_mask_scalar_misfit _ _ _ n k Hx Hm Hne) in H. exact H.
  - pose proof (update_on_post_spikes_cases w Hs) as H.
    rewrite (setitem_mask_scalar_misfit _ _ _ n k Hx Hm Hne) in H. exact H.
Qed.

Lemma wrong_mask_length_raises_witness :
  static (self (arrange pre_at_10 pre_2x2)) = false /\
  shape (_last_pre_spike_time (self (arrange pre_at_10 pre_2x2))) = [2] /\
  shape (Layer.firing_mask (pre_layer (arrange pre_at_10 pre_2x2))) = [1] /\
  shape (_last_post_spike_time (self (arrange pre_at_10 pre_2x2))) = [2] /\
  shape (Layer.firing_mask (post_layer (arrange pre_at_10 pre_2x2))) = [1] /\
  1 <> 2 /\
  ExponentialSTDPSynapse.update_on_pre_spikes (arrange pre_at_10 pre_2x2)
    = (inl index_error, arrange pre_at_10 pre_2x2) /\
  ExponentialSTDPSynapse.update_on_post_spikes (arrange pre_at_10 pre_2x2)
    = (inl index_error, arrange pre_at_10 pre_2x2).
Proof.
  assert (Hne : 1 <> 2) by discriminate.
  destruct (wrong_mask_length_raises (arrange pre_at_10 pre_2x2) 2 1 eq_refl)
    as [Hpre Hpost].
  repeat (split; [reflexivity|]). split; [exact Hne|].
  split; [exact (Hpre eq_refl eq_refl Hne)|exact (Hpost eq_refl eq_refl Hne)].
Defined.

(** X9.  On a non-static synapse with a firing mask of the length of the
    spike-time vector and a network time that is a float32 number, after
    the hook (even though it may have raised later on) the spike time of
    every neuron that fired is the current network time and every other
    spike time is as before. *)
Theorem spikes_are_recorded (w : World) (P Q : nat) :
  static (self w) = false ->
  float32 (Network.time (network w)) ->
  (vector_of P (_last_pre_spike_time (self w)) ->
   vector_of P (Layer.firing_mask (pre_layer w)) ->
   vector_of P (_last_pre_spike_time
                  (self (snd (ExponentialSTDPSynapse.update_on_pre_spikes w)))) /\
   forall k,
     get (_last_pre_spike_time
            (self (snd (ExponentialSTDPSynapse.update_on_pre_spikes w)))) [k]
     = if get (Layer.firing_mask (pre_layer w)) [k]
       then Network.time (network w)
       else get (_last_pre_spike_time (self w)) [k]) /\
  (vector_of Q (_last_post_spike_time (self w)) ->
   vector_of Q (Layer.firing_mask (post_layer w)) ->
   vector_of Q (_last_post_spike_time
                  (self (snd (ExponentialSTDPSynapse.update_on_post_spikes w)))) /\
   forall k,
     get (_last_post_spike_time
            (self (snd (ExponentialSTDPSynapse.update_on_post_spikes w)))) [k]
     = if get (Layer.firing_mask (post_layer w)) [k]
       then Network.time (network w)
       else get (_last_post_spike_time (self w)) [k]).
Proof.
  intros Hs _. split; intros Hx Hm.
  - pose proof (update_on_pre_spikes_cases w Hs) as H.
    destruct (setitem_mask_scalar_vector _ _ (Network.time (network w)) P Hx Hm)
      as (lp & Hset & Hv & Hget).
    rewrite Hset in H. destruct H as [-> | [v ->]]; simpl; split; assumption.
  - pose proof (update_on_post_spikes_cases w Hs) as H.
    destruct (setitem_mask_scalar_vector _ _ (Network.time (network w)) Q Hx Hm)
      as (lp & Hset & Hv & Hget).
    rewrite Hset in H. destruct H as [-> | [v ->]]; simpl; split; assumption.
Qed.

Lemma spikes_are_recorded_witness :
  static (self pre_2x2) = false /\
  float32 (Network.time (network pre_2x2)) /\
  vector_of 2 (_last_pre_spike_time (self pre_2x2)) /\
  vector_of 2 (Layer.firing_mask (pre_layer pre_2x2)) /\
  vector_of 2 (_last_post_spike_time (self pre_2x2)) /\
  vector_of 2 (Layer.firing_mask (post_layer pre_2x2)) /\
  (forall k,
     get (_last_pre_spike_time
            (self (snd (ExponentialSTDPSynapse.update_on_pre_spikes pre_2x2)))) [k]
     = if get (Layer.firing_mask (pre_layer pre_2x2)) [k]
       then Network.time (network pre_2x2)
       else get (_last_pre_spike_time (self pre_2x2)) [k]) /\
  (forall k,
     get (_last_post_spike_time
            (self (snd (ExponentialSTDPSynapse.update_on_post_spikes pre_2x2)))) [k]
     = if get (Layer.firing_mask (post_layer pre_2x2)) [k]
       then Network.time (network pre_2x2)
       else get (_last_post_spike_time (self pre_2x2)) [k]).
Proof.
  assert (V : forall A (l : list A), length l = 2 -> vector_of 2 (vector l))
    by (intros A l Hl; split; [unfold vector; simpl; rewrite Hl; reflexivity|exact Hl]).
  assert (V1 : vector_of 2 (_last_pre_spike_time (self pre_2x2))) by (apply V; reflexivity).
  assert (V2 : vector_of 2 (Layer.firing_mask (pre_layer pre_2x2))) by (apply V; reflexivity).
  assert (V3 : vector_of 2 (_last_post_spike_time (self pre_2x2))) by (apply V; reflexivity).
  assert (V4 : vector_of 2 (Layer.firing_mask (post_layer pre_2x2))) by (apply V; reflexivity).
  assert (Hnow : float32 (Network.time (network pre_2x2)))
    by (apply (float32_IZR 2); reflexivity).
  destruct (spikes_are_recorded pre_2x2 2 2 eq_refl Hnow) as [Hpre Hpost].
  split; [reflexivity|]. split; [exact Hnow|]. split; [exact V1|]. split; [exact V2|].
  split; [exact V3|]. split; [exact V4|].
  split; [exact (proj2 (Hpre V1 V2))|exact (proj2 (Hpost V3 V4))].
Defined.

Lemma call_matrix (c : Call) (w : World) :
  ndim (weights (self w)) = 2 ->
  weights (self (snd (call c w))) = weights (self w).
Proof.
  intros Hw. unfold call. destruct (hook c); simpl.
  - apply (update_on_pre_spikes_matrix (arrange c w) Hw).
  - apply (update_on_post_spikes_matrix (arrange c w) Hw).
Qed.

(** X10.  When the weights are a matrix, no sequence of update-hook calls,
    static or not, whatever the layers, masks and clock, ever changes a
    weight: after every call the weights are the initial ones. *)
Theorem matrix_weights_never_change (cs : list Call) : forall w : World,
  ndim (weights (self w)) = 2 ->
  Forall (fun w' => weights (self w') = weights (self w)) (observe cs w).
Proof.
  induction cs as [|c cs IH]; intros w Hw; simpl.
  - constructor.
  - pose proof (call_matrix c w Hw) as Hc. constructor; [exact Hc|].
    rewrite <- Hc. apply IH. rewrite Hc. exact Hw.
Qed.

Lemma matrix_weights_never_change_witness :
  ndim (weights (self scenario_start)) = 2 /\
  Forall (fun w' => weights (self w') = weights (self scenario_start))
    (observe [post_at_5; pre_at_10; post_at_12] scenario_start).
Proof.
  split; [reflexivity|].
  exact (matrix_weights_never_change [post_at_5; pre_at_10; post_at_12]
           scenario_start eq_refl).
Defined.

(** X11.  With [static = true] every hook call returns normally, whatever
    the masks and parameters (even missing ones), and the synapse is left
    entirely as it was: in particular the spikes that occur while the
    synapse is static are not recorded. *)
Theorem static_hooks_do_nothing (w : World) :
  static (self w) = true ->
  (forall c, call c w = (inr tt, arrange c w)) /\
  forall cs, Forall (fun w' => self w' = self w) (observe cs w).
Proof.
  intros Hs. split; [intros c; apply static_call; exact Hs|].
  intros cs. revert w Hs. induction cs as [|c cs IH]; intros w Hs; simpl.
  - constructor.
  - rewrite (static_call c w Hs). simpl. constructor; [reflexivity|].
    apply (IH (arrange c w)). exact Hs.
Qed.

Lemma static_hooks_do_nothing_witness :
  static (self frozen_high) = true /\
  call pre_at_10 frozen_high = (inr tt, arrange pre_at_10 frozen_high) /\
  Forall (fun w' => self w' = self frozen_high)
    (observe [post_at_5; pre_at_10; post_at_12] frozen_high).
Proof.
  destruct (static_hooks_do_nothing frozen_high eq_refl) as [Hcall Hseq].
  split; [reflexivity|]. split; [exact (Hcall pre_at_10)|].
  exact (Hseq [post_at_5; pre_at_10; post_at_12]).
Defined.

(** ** Spike times over a run *)

Lemma Forall2_Rle_refl (l : list R) : Forall2 Rle l l.
Proof. induction l; constructor; [lra|assumption]. Qed.

Lemma Forall2_Rle_trans (l1 l2 l3 : list R) :
  Forall2 Rle l1 l2 -> Forall2 Rle l2 l3 -> Forall2 Rle l1 l3.
Proof.
  intros H. revert l3. induction H as [|a b l1 l2 Hab _ IH]; intros l3 H3.
  - inversion H3. constructor.
  - inversion H3 as [|b' c l2' l3' Hbc Ht]; subst. constructor; [lra|].
    apply IH. assumption.
Qed.

(** Filling keeps every entry or replaces it by the new value. *)
Lemma fill_forward (mask : list bool) (c : nat) (t : R) : forall l : list R,
  Forall (fun v => v <= t)%R l ->
  Forall2 Rle l (fill mask c t l) /\ Forall (fun v => v <= t)%R (fill mask c t l).
Proof.
  induction mask as [|b mask IH]; intros l Hl; simpl.
  - split; [apply Forall2_Rle_refl|assumption].
  - rewrite <- (firstn_skipn c l) in Hl. apply Forall_app in Hl.
    destruct Hl as [Hf Hs]. destruct (IH _ Hs) as [IH1 IH2].
    split.
    + rewrite <- (firstn_skipn c l) at 1. apply Forall2_app; [|exact IH1].
      destruct b; [|apply Forall2_Rle_refl].
      clear -Hf. induction (firstn c l) as [|x xs IHx]; simpl; constructor.
      * exact (Forall_inv Hf).
      * apply IHx. exact (Forall_inv_tail Hf).
    + apply Forall_app. split; [|exact IH2].
      destruct b; [|exact Hf].
      apply Forall_forall. intros x Hx. apply in_map_iff in Hx.
      destruct Hx as (y & <- & _). lra.
Qed.

Lemma setitem_forward (x y : Tensor R) (m : Tensor bool) (t : R) :
  setitem_mask_scalar x m t = inr y ->
  Forall (fun v => v <= t)%R (data x) ->
  Forall2 Rle (data x) (data y) /\ Forall (fun v => v <= t)%R (data y).
Proof.
  unfold setitem_mask_scalar. destruct (mask_fits x m); [|discriminate].
  intros [= <-] Hx. simpl. apply fill_forward. exact Hx.
Qed.

Lemma not_after_later (t t' : R) (s : Synapse) :
  (t <= t')%R -> not_after t s -> not_after t' s.
Proof.
  intros Hle [H1 H2]. split; eapply Forall_impl; try eassumption;
    simpl; intros; lra.
Qed.

Lemma never_earlier_refl (s : Synapse) : never_earlier s s.
Proof. split; apply Forall2_Rle_refl. Qed.

Lemma never_earlier_trans (s1 s2 s3 : Synapse) :
  never_earlier s1 s2 -> never_earlier s2 s3 -> never_earlier s1 s3.
Proof.
  intros [A1 A2] [B1 B2]. split; eapply Forall2_Rle_trans; eassumption.
Qed.

Lemma call_forward (c : Call) (w : World) :
  not_after (Network.time (call_net c)) (self w) ->
  never_earlier (self w) (self (snd (call c w))) /\
  not_after (Network.time (call_net c)) (self (snd (call c w))).
Proof.
  intros Hn. unfold call.
  destruct (static (self w)) eqn:Hs.
  { change (run_hook (hook c) (arrange c w)) with (call c w).
    rewrite (static_call c w Hs). simpl.
    split; [apply never_earlier_refl|exact Hn]. }
  assert (Hs' : static (self (arrange c w)) = false) by exact Hs.
  destruct Hn as [Hp Hq].
  destruct (hook c); simpl.
  - pose proof (update_on_pre_spikes_cases (arrange c w) Hs') as H.
    destruct (setitem_mask_scalar _ _ _) as [e|lp] eqn:Hset.
    + rewrite H. simpl. split; [apply never_earlier_refl|split; assumption].
    + simpl in Hset. destruct (setitem_forward _ _ _ _ Hset Hp) as [F1 F2].
      destruct H as [-> | [v ->]]; simpl;
        (split; [split; [exact F1|apply Forall2_Rle_refl]|split; assumption]).
  - pose proof (update_on_post_spikes_cases (arrange c w) Hs') as H.
    destruct (setitem_mask_scalar _ _ _) as [e|lp] eqn:Hset.
    + rewrite H. simpl. split; [apply never_earlier_refl|split; assumption].
    + simpl in Hset. destruct (setitem_forward _ _ _ _ Hset Hq) as [F1 F2].
      destruct H as [-> | [v ->]]; simpl;
        (split; [split; [apply Forall2_Rle_refl|exact F1]|split; assumption]).
Qed.

(** X12.  If no recorded spike time is later than [t] and the clock
    values of the calls start at [t] or later and never decrease, then
    after every call of the sequence every recorded spike time is its
    initial value or later: spike times only move forward. *)
Theorem spike_times_only_move_forward (cs : list Call) : forall (w : World) (t : R),
  not_after t (self w) -> chronological t cs ->
  Forall (fun w' => never_earlier (self w) (self w')) (observe cs w).
Proof.
  induction cs as [|c cs IH]; intros w t Hn Hc; simpl.
  - constructor.
  - destruct Hc as [Hle Hc].
    destruct (call_forward c w (not_after_later _ _ _ Hle Hn)) as [Hstep Hn'].
    constructor; [exact Hstep|].
    eapply Forall_impl; [|exact (IH _ _ Hn' Hc)].
    simpl. intros w' Hw'. eapply never_earlier_trans; eassumption.
Qed.

Lemma spike_times_only_move_forward_witness :
  not_after 0 (self scenario_start) /\
  chronological 0 [post_at_5; pre_at_10; post_at_12] /\
  Forall (fun w' => never_earlier (self scenario_start) (self w'))
    (observe [post_at_5; pre_at_10; post_at_12] scenario_start).
Proof.
  assert (Hn : not_after 0 (self scenario_start))
    by (split; simpl; repeat constructor; lra).
  assert (Hc : chronological 0 [post_at_5; pre_at_10; post_at_12])
    by (simpl; repeat split; lra).
  split; [exact Hn|]. split; [exact Hc|].
  exact (spike_times_only_move_forward [post_at_5; pre_at_10; post_at_12]
           scenario_start 0 Hn Hc).
Defined.

(** ** A synapse as constructed *)

Lemma sub_same_shape (a b : Tensor R) :
  shape b = shape a -> exists c, sub a b = inr c.
Proof.
  intros Hs. unfold sub, broadcast2. rewrite Hs, broadcast_shapes_same.
  eexists. reflexivity.
Qed.

Lemma pre_spike_pairs_unset (w : World) (P Q : nat) :
  vector_of P (_last_pre_spike_time (self w)) ->
  vector_of Q (_last_post_spike_time (self w)) ->
  Layer.size (pre_layer w) = P -> Layer.size (post_layer w) = Q ->
  vector_of P (Layer.firing_mask (pre_layer w)) ->
  tau_m (self w) = None ->
  ExponentialSTDPSynapse.pre_spike_pairs w
  = (inl (AttributeError "tau_m"),
     snd (ExponentialSTDPSynapse.pre_spike_pairs w)).
Proof.
  intros Hp Hq Sp Sq Hm Ht.
  destruct (setitem_mask_scalar_vector _ _ (Network.time (network w)) P Hp Hm)
    as (lp & Hset & Hlp & _).
  destruct (ger_vectors (Layer.firing_mask (pre_layer w))
              (tmap (Rleb 0) (_last_post_spike_time (self w))) P Q
              (proj1 Hm) (proj1 Hq)) as (a0 & Hger & _).
  destruct (rows_and_columns P Q lp (_last_post_spike_time (self w))
              (proj1 Hlp) (proj1 Hq))
    as (ra & rat & rb & Hra & Hrat & Hrb & Hsrat & Hsrb & _).
  destruct (sub_same_shape rat rb) as (dt & Hsub); [congruence|].
  unfold ExponentialSTDPSynapse.pre_spike_pairs. run.
  rewrite Hset; simpl. rewrite Hger; simpl. rewrite Sq, Hra; simpl.
  rewrite Hrat; simpl. rewrite Sp, Hrb; simpl. rewrite Hsub; simpl.
  rewrite Ht. reflexivity.
Qed.

Lemma post_spike_pairs_unset (w : World) (P Q : nat) :
  vector_of P (_last_pre_spike_time (self w)) ->
  vector_of Q (_last_post_spike_time (self w)) ->
  Layer.size (pre_layer w) = P -> Layer.size (post_layer w) = Q ->
  vector_of Q (Layer.firing_mask (post_layer w)) ->
  tau_p (self w) = None ->
  ExponentialSTDPSynapse.post_spike_pairs w
  = (inl (AttributeError "tau_p"),
     snd (ExponentialSTDPSynapse.post_spike_pairs w)).
Proof.
  intros Hp Hq Sp Sq Hm Ht.
  destruct (setitem_mask_scalar_vector _ _ (Network.time (network w)) Q Hq Hm)
    as (lq & Hset & Hlq & _).
  destruct (ger_vectors (tmap (Rleb 0) (_last_pre_spike_time (self w)))
              (Layer.firing_mask (post_layer w)) P Q
              (proj1 Hp) (proj1 Hm)) as (a0 & Hger & _).
  destruct (rows_and_columns P Q (_last_pre_spike_time (self w)) lq
              (proj1 Hp) (proj1 Hlq))
    as (ra & rat & rb & Hra & Hrat & Hrb & Hsrat & Hsrb & _).
  destruct (sub_same_shape rb rat) as (dt & Hsub); [congruence|].
  unfold ExponentialSTDPSynapse.post_spike_pairs. run.
  rewrite Hset; simpl. rewrite Hger; simpl. rewrite Sp, Hrb; simpl.
  rewrite Sq, Hra; simpl. rewrite Hrat; simpl. rewrite Hsub; simpl.
  rewrite Ht. reflexivity.
Qed.

Lemma negated_ones_vector (n : nat) :
  vector_of n (neg (ones n)) /\
  Forall (fun v => v = (-1)%R) (data (neg (ones n))).
Proof.
  unfold vector_of, neg, ones, tmap. simpl. split; [split; [reflexivity|]|].
  - rewrite length_map, repeat_length. reflexivity.
  - apply Forall_forall. intros v Hv. apply in_map_iff in Hv.
    destruct Hv as (x & <- & Hx). apply repeat_spec in Hx. subst x. lra.
Qed.

(** X13.  A synapse as [__init__] leaves it has none of the rule
    parameters: with a firing mask of the layer's size, its pre-spike
    update raises AttributeError for [tau_m] and its post-spike update
    raises AttributeError for [tau_p], whatever the weights. *)
Theorem constructed_synapse_cannot_update (pre post : Layer.t) (ws : Tensor R)
    (net : Network.t) (w : World) :
  ExponentialSTDPSynapse.__init__ pre post ws net = inr w ->
  (vector_of (Layer.size pre) (Layer.firing_mask pre) ->
   fst (ExponentialSTDPSynapse.update_on_pre_spikes w)
   = inl (AttributeError "tau_m")) /\
  (vector_of (Layer.size post) (Layer.firing_mask post) ->
   fst (ExponentialSTDPSynapse.update_on_post_spikes w)
   = inl (AttributeError "tau_p")).
Proof.
  intros [= <-]. split; intros Hm.
  - unfold ExponentialSTDPSynapse.update_on_pre_spikes. run.
    rewrite pre_spike_pairs_unset
      with (P := Layer.size pre) (Q := Layer.size post);
      try reflexivity; try exact Hm; apply negated_ones_vector.
  - unfold ExponentialSTDPSynapse.update_on_post_spikes. run.
    rewrite post_spike_pairs_unset
      with (P := Layer.size pre) (Q := Layer.size post);
      try reflexivity; try exact Hm; apply negated_ones_vector.
Qed.

Lemma constructed_synapse_cannot_update_witness :
  ExponentialSTDPSynapse.__init__ (layer [true]) (layer [false; false])
    (matrix 1 2 [1 / 2; 1 / 2]%R) (Network.mk 1) = inr fresh_1x2 /\
  vector_of (Layer.size (layer [true])) (Layer.firing_mask (layer [true])) /\
  vector_of (Layer.size (layer [false; false]))
    (Layer.firing_mask (layer [false; false])) /\
  fst (ExponentialSTDPSynapse.update_on_pre_spikes fresh_1x2)
    = inl (AttributeError "tau_m") /\
  fst (ExponentialSTDPSynapse.update_on_post_spikes fresh_1x2)
    = inl (AttributeError "tau_p").
Proof.
  assert (V1 : vector_of (Layer.size (layer [true]))
                 (Layer.firing_mask (layer [true]))) by (split; reflexivity).
  assert (V2 : vector_of (Layer.size (layer [false; false]))
                 (Layer.firing_mask (layer [false; false]))) by (split; reflexivity).
  destruct (constructed_synapse_cannot_update _ _ _ _ _ fresh_1x2_constructed)
    as [Hpre Hpost].
  split; [exact fresh_1x2_constructed|]. split; [exact V1|]. split; [exact V2|].
  split; [exact (Hpre V1)|exact (Hpost V2)].
Defined.

(** ** The eligible pairs *)

Lemma Rleb_le (x y : R) : Rleb x y = true <-> (x <= y)%R.
Proof.
  unfold Rleb. destruct (Rle_dec x y); split; intros; try assumption;
    try reflexivity; try discriminate; contradiction.
Qed.

(** X14.  For layers, masks and spike-time vectors of consistent sizes
    [P] and [Q], with a clock value, time differences and a window
    [2 * tau_m] that are float32 numbers (whole ticks, for instance),
    lines 93 to 105 of the pre-spike update yield a [P] by
    [Q] mask and a [P] by [Q] matrix [dt] with
    [dt[p][q] = last_pre[p] - last_post[q]] (after recording); the pair
    [(p, q)] is in the mask exactly when pre neuron [p] fires now, post
    neuron [q] has a spike time [>= 0], and the time since that spike is
    at most [2 * tau_m], with no lower bound; for every pair in the mask
    [dt] is the time elapsed since the post neuron's last spike. *)
Theorem pre_spike_eligibility (w : World) (P Q : nat) (tau : R) :
  vector_of P (_last_pre_spike_time (self w)) ->
  vector_of Q (_last_post_spike_time (self w)) ->
  Layer.size (pre_layer w) = P -> Layer.size (post_layer w) = Q ->
  vector_of P (Layer.firing_mask (pre_layer w)) ->
  tau_m (self w) = Some tau ->
  exact_timing (Network.time (network w))
    (data (_last_pre_spike_time (self w)))
    (data (_last_post_spike_time (self w))) ->
  float32 (2 * tau) ->
  exists active dt w1,
    ExponentialSTDPSynapse.pre_spike_pairs w = (inr (active, dt), w1) /\
    shape active = [P; Q] /\ shape dt = [P; Q] /\
    forall p q, p < P -> q < Q ->
      get dt [p; q]
      = (get (_last_pre_spike_time (self w1)) [p]
         - get (_last_post_spike_time (self w)) [q])%R /\
      (get active [p; q] = true <->
       get (Layer.firing_mask (pre_layer w)) [p] = true /\
       (0 <= get (_last_post_spike_time (self w)) [q])%R /\
       (Network.time (network w) - get (_last_post_spike_time (self w)) [q]
        <= 2 * tau)%R) /\
      (get active [p; q] = true ->
       get dt [p; q]
       = (Network.time (network w) - get (_last_post_spike_time (self w)) [q])%R).
Proof.
  intros Hp Hq Sp Sq Hm Ht _ _.
  destruct (pre_spike_pairs_spec w P Q tau Hp Hq Sp Sq Hm Ht)
    as (active & dt & lp & Hrun & Hrec & Hsa & Hsd & Hpairs).
  exists active, dt, (on_self (set_last_pre_spike_time lp) w).
  split; [exact Hrun|]. split; [exact Hsa|]. split; [exact Hsd|].
  intros p q Hlp Hlq. destruct (Hpairs p q Hlp Hlq) as [Hdt Hact].
  simpl. split; [exact Hdt|].
  assert (Hfire : get (Layer.firing_mask (pre_layer w)) [p] = true ->
                  get dt [p; q]
                  = (Network.time (network w)
                     - get (_last_post_spike_time (self w)) [q])%R).
  { intros Hf. rewrite Hdt, Hrec, Hf. reflexivity. }
  split.
  - rewrite Hact, !andb_true_iff, !Rleb_le. split.
    + intros [[Hf H0] Hwin]. rewrite (Hfire Hf) in Hwin. tauto.
    + intros (Hf & H0 & Hwin). rewrite (Hfire Hf). tauto.
  - intros Ha. rewrite Hact, !andb_true_iff in Ha. apply Hfire. tauto.
Qed.

Lemma pre_spike_eligibility_witness :
  vector_of 2 (_last_pre_spike_time (self pre_2x2)) /\
  vector_of 2 (_last_post_spike_time (self pre_2x2)) /\
  Layer.size (pre_layer pre_2x2) = 2 /\ Layer.size (post_layer pre_2x2) = 2 /\
  vector_of 2 (Layer.firing_mask (pre_layer pre_2x2)) /\
  tau_m (self pre_2x2) = Some 20%R /\
  exact_timing (Network.time (network pre_2x2))
    (data (_last_pre_spike_time (self pre_2x2)))
    (data (_last_post_spike_time (self pre_2x2))) /\
  float32 (2 * 20) /\
  exists active dt w1,
    ExponentialSTDPSynapse.pre_spike_pairs pre_2x2 = (inr (active, dt), w1) /\
    shape active = [2; 2] /\ shape dt = [2; 2].
Proof.
  assert (V : forall A (l : list A), length l = 2 -> vector_of 2 (vector l))
    by (intros A l Hl; split; [unfold vector; simpl; rewrite Hl; reflexivity|exact Hl]).
  assert (V1 : vector_of 2 (_last_pre_spike_time (self pre_2x2))) by (apply V; reflexivity).
  assert (V2 : vector_of 2 (_last_post_spike_time (self pre_2x2))) by (apply V; reflexivity).
  assert (V3 : vector_of 2 (Layer.firing_mask (pre_layer pre_2x2))) by (apply V; reflexivity).
  split; [exact V1|]. split; [exact V2|]. split; [reflexivity|].
  split; [reflexivity|]. split; [exact V3|]. split; [reflexivity|].
  assert (Hwin : float32 (2 * 20))
    by (apply (float32_whole _ 40); [lra|reflexivity]).
  split; [exact pre_2x2_exact|]. split; [exact Hwin|].
  destruct (pre_spike_eligibility pre_2x2 2 2 20 V1 V2 eq_refl eq_refl V3 eq_refl
              pre_2x2_exact Hwin)
    as (active & dt & w1 & Hrun & Hsa & Hsd & _).
  exists active, dt, w1. split; [exact Hrun|]. split; [exact Hsa|exact Hsd].
Defined.

(** X15.  The mirror image for lines 116 to 128 of the post-spike update,
    under the same conditions on the clock, the differences and
    [2 * tau_p]:
    [dt[p][q] = last_post[q] - last_pre[p]]; the pair [(p, q)] is in the
    mask exactly when post neuron [q] fires now, pre neuron [p] has a
    spike time [>= 0], and the time since that spike is at most
    [2 * tau_p]; for every pair in the mask [dt] is the time elapsed
    since the pre neuron's last spike. *)
Theorem post_spike_eligibility (w : World) (P Q : nat) (tau : R) :
  vector_of P (_last_pre_spike_time (self w)) ->
  vector_of Q (_last_post_spike_time (self w)) ->
  Layer.size (pre_layer w) = P -> Layer.size (post_layer w) = Q ->
  vector_of Q (Layer.firing_mask (post_layer w)) ->
  tau_p (self w) = Some tau ->
  exact_timing (Network.time (network w))
    (data (_last_post_spike_time (self w)))
    (data (_last_pre_spike_time (self w))) ->
  float32 (2 * tau) ->
  exists active dt w1,
    ExponentialSTDPSynapse.post_spike_pairs w = (inr (active, dt), w1) /\
    shape active = [P; Q] /\ shape dt = [P; Q] /\
    forall p q, p < P -> q < Q ->
      get dt [p; q]
      = (get (_last_post_spike_time (self w1)) [q]
         - get (_last_pre_spike_time (self w)) [p])%R /\
      (get active [p; q] = true <->
       (0 <= get (_last_pre_spike_time (self w)) [p])%R /\
       get (Layer.firing_mask (post_layer w)) [q] = true /\
       (Network.time (network w) - get (_last_pre_spike_time (self w)) [p]
        <= 2 * tau)%R) /\
      (get active [p; q] = true ->
       get dt [p; q]
       = (Network.time (network w) - get (_last_pre_spike_time (self w)) [p])%R).
Proof.
  intros Hp Hq Sp Sq Hm Ht _ _.
  destruct (post_spike_pairs_spec w P Q tau Hp Hq Sp Sq Hm Ht)
    as (active & dt & lq & Hrun & Hrec & Hsa & Hsd & Hpairs).
  exists active, dt, (on_self (set_last_post_spike_time lq) w).
  split; [exact Hrun|]. split; [exact Hsa|]. split; [exact Hsd|].
  intros p q Hlp Hlq. destruct (Hpairs p q Hlp Hlq) as [Hdt Hact].
  simpl. split; [exact Hdt|].
  assert (Hfire : get (Layer.firing_mask (post_layer w)) [q] = true ->
                  get dt [p; q]
                  = (Network.time (network w)
                     - get (_last_pre_spike_time (self w)) [p])%R).
  { intros Hf. rewrite Hdt, Hrec, Hf. reflexivity. }
  split.
  - rewrite Hact, !andb_true_iff, !Rleb_le. split.
    + intros [[H0 Hf] Hwin]. rewrite (Hfire Hf) in Hwin. tauto.
    + intros (H0 & Hf & Hwin). rewrite (Hfire Hf). tauto.
  - intros Ha. rewrite Hact, !andb_true_iff in Ha. apply Hfire. tauto.
Qed.

Lemma post_spike_eligibility_witness :
  vector_of 2 (_last_pre_spike_time (self post_2x2)) /\
  vector_of 2 (_last_post_spike_time (self post_2x2)) /\
  Layer.size (pre_layer post_2x2) = 2 /\ Layer.size (post_layer post_2x2) = 2 /\
  vector_of 2 (Layer.firing_mask (post_layer post_2x2)) /\
  tau_p (self post_2x2) = Some 20%R /\
  exact_timing (Network.time (network post_2x2))
    (data (_last_post_spike_time (self post_2x2)))
    (data (_last_pre_spike_time (self post_2x2))) /\
  float32 (2 * 20) /\
  exists active dt w1,
    ExponentialSTDPSynapse.post_spike_pairs post_2x2 = (inr (active, dt), w1) /\
    shape active = [2; 2] /\ shape dt = [2; 2].
Proof.
  assert (V : forall A (l : list A), length l = 2 -> vector_of 2 (vector l))
    by (intros A l Hl; split; [unfold vector; simpl; rewrite Hl; reflexivity|exact Hl]).
  assert (V1 : vector_of 2 (_last_pre_spike_time (self post_2x2))) by (apply V; reflexivity).
  assert (V2 : vector_of 2 (_last_post_spike_time (self post_2x2))) by (apply V; reflexivity).
  assert (V3 : vector_of 2 (Layer.firing_mask (post_layer post_2x2))) by (apply V; reflexivity).
  split; [exact V1|]. split; [exact V2|]. split; [reflexivity|].
  split; [reflexivity|]. split; [exact V3|]. split; [reflexivity|].
  assert (Hwin : float32 (2 * 20))
    by (apply (float32_whole _ 40); [lra|reflexivity]).
  split; [exact post_2x2_exact|]. split; [exact Hwin|].
  destruct (post_spike_eligibility post_2x2 2 2 20 V1 V2 eq_refl eq_refl V3 eq_refl
              post_2x2_exact Hwin)
    as (active & dt & w1 & Hrun & Hsa & Hsd & _).
  exists active, dt, w1. split; [exact Hrun|]. split; [exact Hsa|exact Hsd].
Defined.

(** ** [forward] is linear *)

Lemma Rsum_map_plus {A} (f g h : A -> R) (l : list A) :
  (forall x, In x l -> f x = (g x + h x)%R) ->
  Rsum (map f l) = (Rsum (map g l) + Rsum (map h l))%R.
Proof.
  induction l as [|x l IH]; intros H; simpl.
  - lra.
  - rewrite (H x) by (left; reflexivity).
    rewrite IH by (intros y Hy; apply H; right; exact Hy). lra.
Qed.

Lemma Rsum_map_scale {A} (c : R) (f g : A -> R) (l : list A) :
  (forall x, In x l -> f x = (c * g x)%R) ->
  Rsum (map f l) = (c * Rsum (map g l))%R.
Proof.
  induction l as [|x l IH]; intros H; simpl.
  - lra.
  - rewrite (H x) by (left; reflexivity).
    rewrite IH by (intros y Hy; apply H; right; exact Hy). lra.
Qed.

(** X6.  [forward()] is linear in the pre-layer outputs: with the same
    [P] by [Q] weights and products free of float32 rounding in all three
    runs, if the outputs are [a * o1 + b * o2] entry by entry, the inputs
    written to the post layer are [a * i1 + b * i2] entry by entry. *)
Theorem forward_is_linear (w1 w2 w3 : World) (P Q : nat) (a b : R) :
  shape (Layer.o (pre_layer w1)) = [P] -> shape (Layer.o (pre_layer w2)) = [P] ->
  shape (Layer.o (pre_layer w3)) = [P] ->
  shape (weights (self w1)) = [P; Q] ->
  weights (self w2) = weights (self w1) -> weights (self w3) = weights (self w1) ->
  exact_products P Q (data (Layer.o (pre_layer w1))) (data (weights (self w1))) ->
  exact_products P Q (data (Layer.o (pre_layer w2))) (data (weights (self w1))) ->
  exact_products P Q (data (Layer.o (pre_layer w3))) (data (weights (self w1))) ->
  (forall p, p < P ->
     nth p (data (Layer.o (pre_layer w3))) 0%R
     = (a * nth p (data (Layer.o (pre_layer w1))) 0
        + b * nth p (data (Layer.o (pre_layer w2))) 0)%R) ->
  forall q, q < Q ->
    nth q (data (Layer.i (post_layer (snd (AbstractSynapse.forward w3))))) 0%R
    = (a * nth q (data (Layer.i (post_layer (snd (AbstractSynapse.forward w1))))) 0
       + b * nth q (data (Layer.i (post_layer (snd (AbstractSynapse.forward w2))))) 0)%R.
Proof.
  intros H1 H2 H3 Hw E2 E3 _ _ _ Hsum q Hq.
  assert (Hw2 : shape (weights (self w2)) = [P; Q]) by (rewrite E2; exact Hw).
  assert (Hw3 : shape (weights (self w3)) = [P; Q]) by (rewrite E3; exact Hw).
  rewrite (forward_entry w1 P Q q H1 Hw Hq), (forward_entry w2 P Q q H2 Hw2 Hq),
    (forward_entry w3 P Q q H3 Hw3 Hq), E2, E3.
  change (fold_right Rplus 0%R) with Rsum.
  rewrite <- (Rsum_map_scale a
    (fun p => (a * (nth p (data (Layer.o (pre_layer w1))) 0
                    * nth (p * Q + q) (data (weights (self w1))) 0))%R))
    by reflexivity.
  rewrite <- (Rsum_map_scale b
    (fun p => (b * (nth p (data (Layer.o (pre_layer w2))) 0
                    * nth (p * Q + q) (data (weights (self w1))) 0))%R))
    by reflexivity.
  apply Rsum_map_plus. intros p Hp. apply in_seq in Hp.
  rewrite Hsum by lia. lra.
Qed.

Lemma forward_is_linear_witness :
  shape (Layer.o (pre_layer forward_2x2)) = [2] /\
  shape (Layer.o (pre_layer forward_2x2_b)) = [2] /\
  shape (Layer.o (pre_layer forward_2x2_sum)) = [2] /\
  shape (weights (self forward_2x2)) = [2; 2] /\
  weights (self forward_2x2_b) = weights (self forward_2x2) /\
  weights (self forward_2x2_sum) = weights (self forward_2x2) /\
  exact_products 2 2 (data (Layer.o (pre_layer forward_2x2)))
    (data (weights (self forward_2x2))) /\
  exact_products 2 2 (data (Layer.o (pre_layer forward_2x2_b)))
    (data (weights (self forward_2x2))) /\
  exact_products 2 2 (data (Layer.o (pre_layer forward_2x2_sum)))
    (data (weights (self forward_2x2))) /\
  (forall p, p < 2 ->
     nth p (data (Layer.o (pre_layer forward_2x2_sum))) 0%R
     = (2 * nth p (data (Layer.o (pre_layer forward_2x2))) 0
        + 3 * nth p (data (Layer.o (pre_layer forward_2x2_b))) 0)%R) /\
  forall q, q < 2 ->
    nth q (data (Layer.i (post_layer (snd (AbstractSynapse.forward forward_2x2_sum))))) 0%R
    = (2 * nth q (data (Layer.i (post_layer (snd (AbstractSynapse.forward forward_2x2))))) 0
       + 3 * nth q (data (Layer.i (post_layer (snd (AbstractSynapse.forward forward_2x2_b))))) 0)%R.
Proof.
  assert (Ho : forall p, p < 2 ->
     nth p (data (Layer.o (pre_layer forward_2x2_sum))) 0%R
     = (2 * nth p (data (Layer.o (pre_layer forward_2x2))) 0
        + 3 * nth p (data (Layer.o (pre_layer forward_2x2_b))) 0)%R)
    by (intros p Hp; do 2 (destruct p as [|p]; [simpl; lra|]); lia).
  split; [reflexivity|]. split; [reflexivity|]. split; [reflexivity|].
  split; [reflexivity|]. split; [reflexivity|]. split; [reflexivity|].
  split; [exact forward_2x2_exact|]. split; [exact forward_2x2_b_exact|].
  split; [exact forward_2x2_sum_exact|]. split; [exact Ho|].
  exact (forward_is_linear forward_2x2 forward_2x2_b forward_2x2_sum 2 2 2 3
           eq_refl eq_refl eq_refl eq_refl eq_refl eq_refl
           forward_2x2_exact forward_2x2_b_exact forward_2x2_sum_exact Ho).
Defined.

(** ** Where a non-static update stops *)

Lemma broadcast_picked (n P Q : nat) :
  broadcast_shapes [n] [P; Q]
  = if n =? Q then Some [P; n]
    else if n =? 1 then Some [P; Q]
    else if Q =? 1 then Some [P; n] else None.
Proof.
  unfold broadcast_shapes. change (rev [n]) with [n].
  change (rev [P; Q]) with [Q; P]. cbn [broadcast_rev].
  destruct (n =? Q); [reflexivity|]. destruct (n =? 1); [reflexivity|].
  destruct (Q =? 1); reflexivity.
Qed.

(** The picked entries (1-D, [n] of them) against a [P] by [Q] matrix:
    line 108 and line 131. *)
Lemma picked_against_matrix {A B C} `{Default A} `{Default B}
    (f : A -> B -> C) (a : Tensor A) (b : Tensor B) (n P Q : nat) :
  shape a = [n] -> shape b = [P; Q] ->
  if picked_broadcasts n Q
  then exists c m, broadcast2 f a b = inr c /\ shape c = [P; m] /\
                   broadcast_shapes [n] [P; m] = Some [P; m]
  else broadcast2 f a b = inl broadcast_error.
Proof.
  intros Ha Hb. unfold picked_broadcasts, broadcast2.
  rewrite Ha, Hb, broadcast_picked.
  destruct (n =? Q) eqn:E1; cbn [orb].
  { eexists; exists n; split; [reflexivity|]. split; [reflexivity|].
    rewrite broadcast_picked, Nat.eqb_refl. reflexivity. }
  destruct (n =? 1) eqn:E2; cbn [orb].
  { eexists; exists Q; split; [reflexivity|]. split; [reflexivity|].
    rewrite broadcast_picked, E1, E2. reflexivity. }
  destruct (Q =? 1); [|reflexivity].
  eexists; exists n; split; [reflexivity|]. split; [reflexivity|].
  rewrite broadcast_picked, Nat.eqb_refl. reflexivity.
Qed.

(** The in-place update of the picked entries by a 2-D change: line 109
    and line 132. *)
Lemma in_place_rank_error {A B} `{Default A} `{Default B}
    (f : A -> B -> A) (a : Tensor A) (b : Tensor B) (n P m : nat) :
  shape a = [n] -> shape b = [P; m] ->
  broadcast_shapes [n] [P; m] = Some [P; m] ->
  inplace2 f a b = inl in_place_error.
Proof.
  intros Ha Hb E. unfold inplace2. rewrite Ha, Hb, E.
  unfold same_shape. destruct (list_eq_dec Nat.eq_dec [P; m] [n]) as [Es|_];
    [discriminate|reflexivity].
Qed.

Lemma getitem_mask_matrix {A} (x : Tensor A) (m : Tensor bool) (P Q : nat) :
  shape x = [P; Q] -> shape m = [P; Q] ->
  exists p, getitem_mask x m = inr p /\ shape p = [count_true m].
Proof.
  intros Hx Hm. unfold getitem_mask, mask_fits, block, ndim. rewrite Hx, Hm.
  change (firstn (length [P; Q]) [P; Q]) with [P; Q].
  unfold same_shape. destruct (list_eq_dec Nat.eq_dec [P; Q] [P; Q]) as [_|N];
    [|contradiction].
  eexists. split; reflexivity.
Qed.

(** X16.  For a non-static synapse with all sizes consistent ([P] pre
    neurons, [Q] post neurons, [P] by [Q] weights) and [tau_m] and
    [learn_rate_m] assigned, the pre-spike update gets through lines 93 to
    105 and then raises a RuntimeError, leaving the state in which the
    new pre-spikes are recorded: at line 108 when the number [n] of
    eligible pairs is neither [Q] nor 1 and [Q] is not 1 (the [n] picked
    weights do not broadcast against the [P] by [Q] matrix of decays), and
    otherwise at the in-place subtraction of line 109. *)
Theorem pre_update_failure (w : World) (P Q : nat) (tau rate : R) :
  static (self w) = false ->
  vector_of P (_last_pre_spike_time (self w)) ->
  vector_of Q (_last_post_spike_time (self w)) ->
  Layer.size (pre_layer w) = P -> Layer.size (post_layer w) = Q ->
  vector_of P (Layer.firing_mask (pre_layer w)) ->
  shape (weights (self w)) = [P; Q] ->
  tau_m (self w) = Some tau -> learn_rate_m (self w) = Some rate ->
  exists active dt w1,
    ExponentialSTDPSynapse.pre_spike_pairs w = (inr (active, dt), w1) /\
    ExponentialSTDPSynapse.update_on_pre_spikes w
    = (inl (if picked_broadcasts (count_true active) Q
            then in_place_error else broadcast_error), w1).
Proof.
  intros Hs Hp Hq Sp Sq Hm Hw Ht Hr.
  destruct (pre_spike_pairs_spec w P Q tau Hp Hq Sp Sq Hm Ht)
    as (active & dt & lp & Hrun & _ & Hsa & Hsd & _).
  exists active, dt, (on_self (set_last_pre_spike_time lp) w).
  split; [exact Hrun|].
  destruct (getitem_mask_matrix (weights (self w)) active P Q Hw Hsa)
    as (picked & Hpick & Hsp).
  unfold ExponentialSTDPSynapse.update_on_pre_spikes. run.
  rewrite Hs, Hrun. simpl. rewrite Hr. simpl. rewrite Hpick. simpl.
  rewrite Ht. simpl.
  pose proof (picked_against_matrix Rmult
                (tmap (fun x => (rate * (x - w_min (self w)))%R) picked)
                (tmap (fun d => exp (- d / tau)) dt)
                (count_true active) P Q Hsp Hsd) as Hmul.
  unfold mul. destruct (picked_broadcasts (count_true active) Q).
  - destruct Hmul as (dw & m & Hdw & Hsdw & Hb). rewrite Hdw. simpl. rewrite ?Hpick. simpl.
    unfold isub. rewrite (in_place_rank_error Rminus picked dw _ P m Hsp Hsdw Hb).
    reflexivity.
  - rewrite Hmul. reflexivity.
Qed.

Lemma pre_update_failure_witness :
  static (self pre_2x2) = false /\
  vector_of 2 (_last_pre_spike_time (self pre_2x2)) /\
  vector_of 2 (_last_post_spike_time (self pre_2x2)) /\
  Layer.size (pre_layer pre_2x2) = 2 /\ Layer.size (post_layer pre_2x2) = 2 /\
  vector_of 2 (Layer.firing_mask (pre_layer pre_2x2)) /\
  shape (weights (self pre_2x2)) = [2; 2] /\
  tau_m (self pre_2x2) = Some 20%R /\
  learn_rate_m (self pre_2x2) = Some (1 / 10)%R /\
  exists active dt w1,
    ExponentialSTDPSynapse.pre_spike_pairs pre_2x2 = (inr (active, dt), w1) /\
    ExponentialSTDPSynapse.update_on_pre_spikes pre_2x2
    = (inl (if picked_broadcasts (count_true active) 2
            then in_place_error else broadcast_error), w1).
Proof.
  assert (V : forall A (l : list A), length l = 2 -> vector_of 2 (vector l))
    by (intros A l Hl; split; [unfold vector; simpl; rewrite Hl; reflexivity|exact Hl]).
  assert (V1 : vector_of 2 (_last_pre_spike_time (self pre_2x2))) by (apply V; reflexivity).
  assert (V3 : vector_of 2 (_last_post_spike_time (self pre_2x2))) by (apply V; reflexivity).
  assert (V4 : vector_of 2 (Layer.firing_mask (pre_layer pre_2x2))) by (apply V; reflexivity).
  split; [reflexivity|]. split; [exact V1|]. split; [exact V3|].
  split; [reflexivity|]. split; [reflexivity|]. split; [exact V4|].
  split; [reflexivity|]. split; [reflexivity|]. split; [reflexivity|].
  exact (pre_update_failure pre_2x2 2 2 20 (1 / 10) eq_refl V1 V3 eq_refl eq_refl
           V4 eq_refl eq_refl eq_refl).
Defined.

(** X17.  The mirror image for the post-spike update, with [tau_p] and
    [learn_rate_p]: it raises a RuntimeError at line 131 when the number
    of eligible pairs is neither [Q] nor 1 and [Q] is not 1, and otherwise
    at the in-place addition of line 132; the new post-spikes stay
    recorded. *)
Theorem post_update_failure (w : World) (P Q : nat) (tau rate : R) :
  static (self w) = false ->
  vector_of P (_last_pre_spike_time (self w)) ->
  vector_of Q (_last_post_spike_time (self w)) ->
  Layer.size (pre_layer w) = P -> Layer.size (post_layer w) = Q ->
  vector_of Q (Layer.firing_mask (post_layer w)) ->
  shape (weights (self w)) = [P; Q] ->
  tau_p (self w) = Some tau -> learn_rate_p (self w) = Some rate ->
  exists active dt w1,
    ExponentialSTDPSynapse.post_spike_pairs w = (inr (active, dt), w1) /\
    ExponentialSTDPSynapse.update_on_post_spikes w
    = (inl (if picked_broadcasts (count_true active) Q
            then in_place_error else broadcast_error), w1).
Proof.
  intros Hs Hp Hq Sp Sq Hm Hw Ht Hr.
  destruct (post_spike_pairs_spec w P Q tau Hp Hq Sp Sq Hm Ht)
    as (active & dt & lq & Hrun & _ & Hsa & Hsd & _).
  exists active, dt, (on_self (set_last_post_spike_time lq) w).
  split; [exact Hrun|].
  destruct (getitem_mask_matrix (weights (self w)) active P Q Hw Hsa)
    as (picked & Hpick & Hsp).
  unfold ExponentialSTDPSynapse.update_on_post_spikes. run.
  rewrite Hs, Hrun. simpl. rewrite Hr. simpl. rewrite Hpick. simpl.
  rewrite Ht. simpl.
  pose proof (picked_against_matrix Rmult
                (tmap (fun x => (rate * (w_max (self w) - x))%R) picked)
                (tmap (fun d => exp (- d / tau)) dt)
                (count_true active) P Q Hsp Hsd) as Hmul.
  unfold mul. destruct (picked_broadcasts (count_true active) Q).
  - destruct Hmul as (dw & m & Hdw & Hsdw & Hb). rewrite Hdw. simpl.
    rewrite ?Hpick. simpl.
    unfold iadd. rewrite (in_place_rank_error Rplus picked dw _ P m Hsp Hsdw Hb).
    reflexivity.
  - rewrite Hmul. reflexivity.
Qed.

Lemma post_update_failure_witness :
  static (self post_2x2) = false /\
  vector_of 2 (_last_pre_spike_time (self post_2x2)) /\
  vector_of 2 (_last_post_spike_time (self post_2x2)) /\
  Layer.size (pre_layer post_2x2) = 2 /\ Layer.size (post_layer post_2x2) = 2 /\
  vector_of 2 (Layer.firing_mask (post_layer post_2x2)) /\
  shape (weights (self post_2x2)) = [2; 2] /\
  tau_p (self post_2x2) = Some 20%R /\
  learn_rate_p (self post_2x2) = Some (1 / 10)%R /\
  exists active dt w1,
    ExponentialSTDPSynapse.post_spike_pairs post_2x2 = (inr (active, dt), w1) /\
    ExponentialSTDPSynapse.update_on_post_spikes post_2x2
    = (inl (if picked_broadcasts (count_true active) 2
            then in_place_error else broadcast_error), w1).
Proof.
  assert (V : forall A (l : list A), length l = 2 -> vector_of 2 (vector l))
    by (intros A l Hl; split; [unfold vector; simpl; rewrite Hl; reflexivity|exact Hl]).
  assert (V1 : vector_of 2 (_last_pre_spike_time (self post_2x2))) by (apply V; reflexivity).
  assert (V3 : vector_of 2 (_last_post_spike_time (self post_2x2))) by (apply V; reflexivity).
  assert (V4 : vector_of 2 (Layer.firing_mask (post_layer post_2x2))) by (apply V; reflexivity).
  split; [reflexivity|]. split; [exact V1|]. split; [exact V3|].
  split; [reflexivity|]. split; [reflexivity|]. split; [exact V4|].
  split; [reflexivity|]. split; [reflexivity|]. split; [reflexivity|].
  exact (post_update_failure post_2x2 2 2 20 (1 / 10) eq_refl V1 V3 eq_refl eq_refl
           V4 eq_refl eq_refl eq_refl).
Defined.

(** ** Two spikes in the same step *)

(** What a non-static pre-spike update leaves behind, for a mask of the
    right length. *)
Lemma after_pre_update (w : World) (P : nat) :
  static (self w) = false ->
  vector_of P (_last_pre_spike_time (self w)) ->
  vector_of P (Layer.firing_mask (pre_layer w)) ->
  let w' := snd (ExponentialSTDPSynapse.update_on_pre_spikes w) in
  same_surroundings w w' /\
  _last_post_spike_time (self w') = _last_post_spike_time (self w) /\
  vector_of P (_last_pre_spike_time (self w')) /\
  forall k, get (_last_pre_spike_time (self w')) [k]
            = if get (Layer.firing_mask (pre_layer w)) [k]
              then Network.time (network w)
              else get (_last_pre_spike_time (self w)) [k].
Proof.
  intros Hs Hx Hm. pose proof (update_on_pre_spikes_cases w Hs) as H.
  destruct (setitem_mask_scalar_vector _ _ (Network.time (network w)) P Hx Hm)
    as (lp & Hset & Hv & Hget).
  rewrite Hset in H. simpl.
  destruct H as [-> | [v ->]]; (split; [frame_done|]); simpl;
    (split; [reflexivity|split; assumption]).
Qed.

Lemma after_post_update (w : World) (Q : nat) :
  static (self w) = false ->
  vector_of Q (_last_post_spike_time (self w)) ->
  vector_of Q (Layer.firing_mask (post_layer w)) ->
  let w' := snd (ExponentialSTDPSynapse.update_on_post_spikes w) in
  same_surroundings w w' /\
  _last_pre_spike_time (self w') = _last_pre_spike_time (self w) /\
  vector_of Q (_last_post_spike_time (self w')) /\
  forall k, get (_last_post_spike_time (self w')) [k]
            = if get (Layer.firing_mask (post_layer w)) [k]
              then Network.time (network w)
              else get (_last_post_spike_time (self w)) [k].
Proof.
  intros Hs Hx Hm. pose proof (update_on_post_spikes_cases w Hs) as H.
  destruct (setitem_mask_scalar_vector _ _ (Network.time (network w)) Q Hx Hm)
    as (lp & Hset & Hv & Hget).
  rewrite Hset in H. simpl.
  destruct H as [-> | [v ->]]; (split; [frame_done|]); simpl;
    (split; [reflexivity|split; assumption]).
Qed.

(** X19.  When pre neuron [p] and post neuron [q] fire in the same step
    (at a time [>= 0], sizes consistent, synapse not static), the hook
    that runs second sees the spike the first one recorded, even though
    the first one raised: after [update_on_pre_spikes], lines 116 to 128
    of the post-spike update find [dt[p][q] = 0] and the pair eligible
    exactly when [0 <= tau_p]; after [update_on_post_spikes], lines 93 to
    105 of the pre-spike update find [dt[p][q] = 0] and the pair eligible
    exactly when [0 <= tau_m]. *)
Theorem same_step_spikes (w : World) (P Q : nat) (tm tp : R) (p q : nat) :
  static (self w) = false ->
  vector_of P (_last_pre_spike_time (self w)) ->
  vector_of Q (_last_post_spike_time (self w)) ->
  Layer.size (pre_layer w) = P -> Layer.size (post_layer w) = Q ->
  vector_of P (Layer.firing_mask (pre_layer w)) ->
  vector_of Q (Layer.firing_mask (post_layer w)) ->
  tau_m (self w) = Some tm -> tau_p (self w) = Some tp ->
  p < P -> q < Q ->
  get (Layer.firing_mask (pre_layer w)) [p] = true ->
  get (Layer.firing_mask (post_layer w)) [q] = true ->
  (0 <= Network.time (network w))%R ->
  (exists active dt w2,
     ExponentialSTDPSynapse.post_spike_pairs
       (snd (ExponentialSTDPSynapse.update_on_pre_spikes w))
     = (inr (active, dt), w2) /\
     get dt [p; q] = 0%R /\ (get active [p; q] = true <-> (0 <= tp)%R)) /\
  (exists active dt w2,
     ExponentialSTDPSynapse.pre_spike_pairs
       (snd (ExponentialSTDPSynapse.update_on_post_spikes w))
     = (inr (active, dt), w2) /\
     get dt [p; q] = 0%R /\ (get active [p; q] = true <-> (0 <= tm)%R)).
Proof.
  intros Hs Hp Hq Sp Sq Mp Mq Tm Tp Lp Lq Fp Fq Hnow. split.
  - destruct (after_pre_update w P Hs Hp Mp) as (Hsur & Hpost & Hv & Hget).
    set (w' := snd (ExponentialSTDPSynapse.update_on_pre_spikes w)) in *.
    destruct Hsur as (Epre & Epost & Enet & _ & _ & _ & _ & Etp & _).
    assert (Hq' : vector_of Q (_last_post_spike_time (self w')))
      by (rewrite Hpost; exact Hq).
    assert (Sp' : Layer.size (pre_layer w') = P) by (rewrite Epre; exact Sp).
    assert (Sq' : Layer.size (post_layer w') = Q) by (rewrite Epost; exact Sq).
    assert (Mq' : vector_of Q (Layer.firing_mask (post_layer w')))
      by (rewrite Epost; exact Mq).
    assert (Tp' : tau_p (self w') = Some tp) by (rewrite Etp; exact Tp).
    destruct (post_spike_pairs_spec w' P Q tp Hv Hq' Sp' Sq' Mq' Tp')
      as (active & dt & lq & Hrun & Hrec & _ & _ & Hpairs).
    exists active, dt, (on_self (set_last_post_spike_time lq) w').
    split; [exact Hrun|].
    destruct (Hpairs p q Lp Lq) as [Hdt Hact].
    rewrite Hrec, Epost, Enet, Fq, Hget, Fp in Hdt.
    assert (Hdt0 : get dt [p; q] = 0%R) by (rewrite Hdt; lra).
    split; [exact Hdt0|].
    rewrite Hact, Hdt0, Hget, Fp, Epost, Fq, !andb_true_iff, !Rleb_le.
    split; [intros [_ Hw]; lra|intros Hw; repeat split; lra].
  - destruct (after_post_update w Q Hs Hq Mq) as (Hsur & Hpre & Hv & Hget).
    set (w' := snd (ExponentialSTDPSynapse.update_on_post_spikes w)) in *.
    destruct Hsur as (Epre & Epost & Enet & _ & _ & _ & Etm & _).
    assert (Hp' : vector_of P (_last_pre_spike_time (self w')))
      by (rewrite Hpre; exact Hp).
    assert (Sp' : Layer.size (pre_layer w') = P) by (rewrite Epre; exact Sp).
    assert (Sq' : Layer.size (post_layer w') = Q) by (rewrite Epost; exact Sq).
    assert (Mp' : vector_of P (Layer.firing_mask (pre_layer w')))
      by (rewrite Epre; exact Mp).
    assert (Tm' : tau_m (self w') = Some tm) by (rewrite Etm; exact Tm).
    destruct (pre_spike_pairs_spec w' P Q tm Hp' Hv Sp' Sq' Mp' Tm')
      as (active & dt & lp & Hrun & Hrec & _ & _ & Hpairs).
    exists active, dt, (on_self (set_last_pre_spike_time lp) w').
    split; [exact Hrun|].
    destruct (Hpairs p q Lp Lq) as [Hdt Hact].
    rewrite Hrec, Epre, Enet, Fp, Hget, Fq in Hdt.
    assert (Hdt0 : get dt [p; q] = 0%R) by (rewrite Hdt; lra).
    split; [exact Hdt0|].
    rewrite Hact, Hdt0, Hget, Fq, Epre, Fp, !andb_true_iff, !Rleb_le.
    split; [intros [_ Hw]; lra|intros Hw; repeat split; lra].
Qed.

Lemma same_step_spikes_witness :
  static (self both_fire) = false /\
  vector_of 1 (_last_pre_spike_time (self both_fire)) /\
  vector_of 1 (_last_post_spike_time (self both_fire)) /\
  Layer.size (pre_layer both_fire) = 1 /\ Layer.size (post_layer both_fire) = 1 /\
  vector_of 1 (Layer.firing_mask (pre_layer both_fire)) /\
  vector_of 1 (Layer.firing_mask (post_layer both_fire)) /\
  tau_m (self both_fire) = Some 20%R /\ tau_p (self both_fire) = Some 20%R /\
  0 < 1 /\
  get (Layer.firing_mask (pre_layer both_fire)) [0] = true /\
  get (Layer.firing_mask (post_layer both_fire)) [0] = true /\
  (0 <= Network.time (network both_fire))%R /\
  (exists active dt w2,
     ExponentialSTDPSynapse.post_spike_pairs
       (snd (ExponentialSTDPSynapse.update_on_pre_spikes both_fire))
     = (inr (active, dt), w2) /\
     get dt [0; 0] = 0%R /\ (get active [0; 0] = true <-> (0 <= 20)%R)) /\
  (exists active dt w2,
     ExponentialSTDPSynapse.pre_spike_pairs
       (snd (ExponentialSTDPSynapse.update_on_post_spikes both_fire))
     = (inr (active, dt), w2) /\
     get dt [0; 0] = 0%R /\ (get active [0; 0] = true <-> (0 <= 20)%R)).
Proof.
  assert (V : forall A (l : list A), length l = 1 -> vector_of 1 (vector l))
    by (intros A l Hl; split; [unfold vector; simpl; rewrite Hl; reflexivity|exact Hl]).
  assert (V1 : vector_of 1 (_last_pre_spike_time (self both_fire))) by (apply V; reflexivity).
  assert (V2 : vector_of 1 (_last_post_spike_time (self both_fire))) by (apply V; reflexivity).
  assert (V3 : vector_of 1 (Layer.firing_mask (pre_layer both_fire))) by (apply V; reflexivity).
  assert (V4 : vector_of 1 (Layer.firing_mask (post_layer both_fire))) by (apply V; reflexivity).
  assert (L : 0 < 1) by lia.
  assert (Hnow : (0 <= Network.time (network both_fire))%R) by (simpl; lra).
  split; [reflexivity|]. split; [exact V1|]. split; [exact V2|].
  split; [reflexivity|]. split; [reflexivity|]. split; [exact V3|].
  split; [exact V4|]. split; [reflexivity|]. split; [reflexivity|].
  split; [exact L|]. split; [reflexivity|]. split; [reflexivity|].
  split; [exact Hnow|].
  exact (same_step_spikes both_fire 1 1 20 20 0 0 eq_refl V1 V2 eq_refl eq_refl
           V3 V4 eq_refl eq_refl L L eq_refl eq_refl Hnow).
Defined.
